(** * Provenance-AI: the persistence layer (src/database) in Rocq

    A shallow embedding of [src/database/models.py], [src/database/crud.py],
    [src/database/database.py] and [create_sample_data] of
    [database_setup.py].  SQLAlchemy itself is not part of the repository;
    the part of it that the code relies on (tables, constraints declared on
    the columns, the unit of work of a [Session], relationship cascades) is
    modelled in the first half of the file, and the repository's functions
    are written on top of it in the same order and with the same names as in
    the Python sources.

    Numbers stored in [Float] and [Integer] columns are rationals ([Q]):
    rounding of IEEE doubles is not modelled.  The declared type of a column
    is part of the schema, but the tables hold any value in any column: what
    a backend does with a value that does not fit the type of its column is
    not modelled, and a statement that depends on it carries the hypothesis
    [well_typed]. *)

From Stdlib Require Import QArith ZArith.
From stdpp Require Import base option list strings gmap.

Local Open Scope Z_scope.
Local Open Scope string_scope.

(** ** Column values *)

(** What a Python attribute of a mapped object (and a cell of a table) can
    hold: [None]/NULL, [str], a number, [bool], a [datetime] (seconds), or an
    opaque JSON document. *)
Inductive value :=
| VNull
| VStr (s : string)
| VNum (q : Q)
| VBool (b : bool)
| VTime (t : Z)
| VJson (j : string).

(** Python's [==] on attribute values ([None == None] holds). *)
Definition py_eq (a b : value) : bool :=
  match a, b with
  | VNull, VNull => true
  | VStr x, VStr y => String.eqb x y
  | VNum x, VNum y => Qeq_bool x y
  | VBool x, VBool y => Bool.eqb x y
  | VTime x, VTime y => Z.eqb x y
  | VJson x, VJson y => String.eqb x y
  | _, _ => false
  end.

(** SQL's [=]: a comparison with NULL is never satisfied. *)
Definition sql_eq (a b : value) : bool :=
  match a with
  | VNull => false
  | _ => py_eq a b
  end.

(** SQL's [>=] and [<=] on numeric columns; NULL on either side (or a
    non-numeric operand) does not satisfy the comparison. *)
Definition sql_ge (a b : value) : bool :=
  match a, b with
  | VNum x, VNum y => Qle_bool y x
  | VTime x, VTime y => Z.leb y x
  | _, _ => false
  end.

Definition sql_le (a b : value) : bool := sql_ge b a.

(** A row of a table, and the attribute dictionary of a mapped object:
    column name to value.  A missing key reads as NULL. *)
Abbreviation row := (gmap string value).

Definition col (r : row) (k : string) : value := default VNull (r !! k).

(** ** models.py: the declared schema *)

(** [String_] is [String], [String_of n] is [String(n)]. *)
Inductive ColType :=
| String_
| String_of (length : nat)
| Text | Float | Integer | Boolean | DateTime | JSON.
Arguments String_of _%_nat.

Inductive Default :=
| uuid4            (* default=lambda: str(uuid.uuid4()) *)
| func_now         (* default=func.now() / onupdate=func.now() *)
| const (v : value).

Record Column := {
  name : string;
  type_ : ColType;
  primary_key : bool;
  nullable : bool;
  unique : bool;
  foreign_key : option (string * string);   (* ForeignKey("table.column") *)
  default_ : option Default;
  onupdate : option Default
}.

(** [Column(T)] with SQLAlchemy's defaults: nullable, not unique, no default. *)
Definition Col (n : string) (t : ColType) : Column :=
  {| name := n; type_ := t; primary_key := false; nullable := true;
     unique := false; foreign_key := None; default_ := None; onupdate := None |}.

Definition required (c : Column) : Column :=
  {| name := name c; type_ := type_ c; primary_key := primary_key c;
     nullable := false; unique := unique c; foreign_key := foreign_key c;
     default_ := default_ c; onupdate := onupdate c |}.

Definition with_default (d : Default) (c : Column) : Column :=
  {| name := name c; type_ := type_ c; primary_key := primary_key c;
     nullable := nullable c; unique := unique c; foreign_key := foreign_key c;
     default_ := Some d; onupdate := onupdate c |}.

Definition references (t k : string) (c : Column) : Column :=
  {| name := name c; type_ := type_ c; primary_key := primary_key c;
     nullable := nullable c; unique := unique c; foreign_key := Some (t, k);
     default_ := default_ c; onupdate := onupdate c |}.

(** [id = Column(String, primary_key=True, default=lambda: str(uuid.uuid4()))] *)
Definition id_column : Column :=
  {| name := "id"; type_ := String_; primary_key := true; nullable := false;
     unique := false; foreign_key := None; default_ := Some uuid4;
     onupdate := None |}.

Definition created_at_column : Column := with_default func_now (Col "created_at" DateTime).

Definition updated_at_column : Column :=
  {| name := "updated_at"; type_ := DateTime; primary_key := false;
     nullable := true; unique := false; foreign_key := None;
     default_ := Some func_now; onupdate := Some func_now |}.

(** A mapped class: its table, its columns, the one-to-many relationships
    declared with [cascade="all, delete-orphan"] (relationship name, foreign
    key column of the child, child class) and the names of its many-to-one
    relationships. *)
#[warnings="-register-all"]
Inductive Model :=
  MkModel (tablename : string) (columns : list Column)
          (owns : list (string * string * Model)) (belongs_to : list string).

Definition tablename (m : Model) : string := let 'MkModel t _ _ _ := m in t.
Definition columns (m : Model) : list Column := let 'MkModel _ c _ _ := m in c.
Definition owns (m : Model) : list (string * string * Model) := let 'MkModel _ _ o _ := m in o.
Definition belongs_to (m : Model) : list string := let 'MkModel _ _ _ b := m in b.

Definition ArtworkAppearance : Model :=
  MkModel "artwork_appearances"
    [ id_column;
      references "artworks" "id" (required (Col "artwork_id" String_));
      references "installation_photos" "id" (required (Col "photo_id" String_));
      required (Col "bbox_x" Float);
      required (Col "bbox_y" Float);
      required (Col "bbox_width" Float);
      required (Col "bbox_height" Float);
      required (Col "detection_confidence" Float);
      required (Col "matching_confidence" Float);
      with_default (const (VBool false)) (Col "verified" Boolean);
      Col "verified_by" (String_of 100);
      Col "verification_date" DateTime;
      Col "cropped_image_path" (String_of 500);
      Col "features" JSON;
      Col "visible_percentage" Float;
      Col "occlusion_level" (String_of 20);
      Col "lighting_quality" (String_of 20);
      Col "notes" Text;
      created_at_column;
      updated_at_column ]
    []
    [ "artwork"; "photo" ].

Definition InstallationPhoto : Model :=
  MkModel "installation_photos"
    [ id_column;
      references "exhibitions" "id" (required (Col "exhibition_id" String_));
      required (Col "image_path" (String_of 500));
      Col "original_filename" (String_of 200);
      Col "file_size" Integer;
      Col "width" Integer;
      Col "height" Integer;
      Col "format" (String_of 10);
      Col "camera_make" (String_of 50);
      Col "camera_model" (String_of 100);
      Col "capture_date" DateTime;
      Col "photographer" (String_of 200);
      with_default (const (VBool false)) (Col "processed" Boolean);
      Col "processing_date" DateTime;
      Col "detection_results" JSON;
      Col "room" (String_of 100);
      Col "wall" (String_of 50);
      Col "view_type" (String_of 50);
      Col "notes" Text;
      Col "quality_score" Float;
      created_at_column;
      updated_at_column ]
    [ ("artwork_appearances", "photo_id", ArtworkAppearance) ]
    [ "exhibition" ].

Definition Exhibition : Model :=
  MkModel "exhibitions"
    [ id_column;
      required (Col "name" (String_of 500));
      required (Col "museum" (String_of 200));
      Col "gallery" (String_of 200);
      Col "city" (String_of 100);
      Col "country" (String_of 100);
      Col "start_date" DateTime;
      Col "end_date" DateTime;
      Col "curator" (String_of 200);
      Col "description" Text;
      Col "type" (String_of 100);
      with_default (const (VBool false)) (Col "catalog_published" Boolean);
      Col "catalog_isbn" (String_of 20);
      Col "website_url" (String_of 500);
      created_at_column;
      updated_at_column ]
    [ ("photos", "exhibition_id", InstallationPhoto) ]
    [].

Definition Artwork : Model :=
  MkModel "artworks"
    [ id_column;
      required (Col "title" (String_of 500));
      required (Col "artist" (String_of 200));
      Col "width" Float;
      Col "height" Float;
      Col "depth" Float;
      Col "medium" (String_of 200);
      Col "materials" Text;
      Col "creation_date" (String_of 50);
      Col "description" Text;
      Col "provenance" Text;
      {| name := "catalog_number"; type_ := String_of 100; primary_key := false;
         nullable := true; unique := true; foreign_key := None;
         default_ := None; onupdate := None |};
      Col "accession_number" (String_of 100);
      Col "style" (String_of 100);
      Col "period" (String_of 100);
      Col "subject_matter" Text;
      Col "reference_image_path" (String_of 500);
      Col "thumbnail_path" (String_of 500);
      Col "visual_features" JSON;
      Col "color_palette" JSON;
      created_at_column;
      updated_at_column ]
    [ ("appearances", "artwork_id", ArtworkAppearance) ]
    [].

Definition column_names (m : Model) : list string := name <$> columns m.


Definition is_column (m : Model) (k : string) : bool :=
  bool_decide (k ∈ column_names m).


(** ** Exceptions and the Python control flow that the code uses *)

Inductive exn :=
| IntegrityError (detail : string)        (* sqlalchemy.exc.IntegrityError *)
| InvalidRequestError (detail : string)   (* sqlalchemy.exc.InvalidRequestError *)
| TypeError (detail : string)
| Exception (what : string)               (* any other subclass of Exception *)
| BaseException (what : string).          (* KeyboardInterrupt, SystemExit, ... *)

(** [isinstance(e, Exception)]: what an [except Exception] clause catches. *)
Definition isinstance_Exception (e : exn) : bool :=
  match e with
  | BaseException _ => false
  | _ => true
  end.

Inductive outcome (A : Type) :=
| Return (a : A)
| Raise (e : exn).
Arguments Return {A} a.
Arguments Raise {A} e.

(** A Python computation over a mutable state [St]: the state survives an
    exception, as it does in Python. *)
Definition Py (St A : Type) : Type := St → outcome A * St.

#[global] Instance Py_ret {St} : MRet (Py St) := λ A a s, (Return a, s).

#[global] Instance Py_bind {St} : MBind (Py St) := λ A B f m s,
  match m s with
  | (Return a, s') => f a s'
  | (Raise e, s') => (Raise e, s')
  end.

Definition raise {St A} (e : exn) : Py St A := λ s, (Raise e, s).

(** [try: body  except Exception as e: handler e] *)
Definition try_except {St A} (body : Py St A) (handler : exn → Py St A) : Py St A :=
  λ s,
    match body s with
    | (Return a, s') => (Return a, s')
    | (Raise e, s') =>
        if isinstance_Exception e then handler e s' else (Raise e, s')
    end.

(** [try: body  finally: final]; an exception of [final] replaces the
    outcome of [body]. *)
Definition try_finally {St A} (body : Py St A) (final : Py St unit) : Py St A :=
  λ s,
    let '(r, s') := body s in
    match final s' with
    | (Return _, s'') => (r, s'')
    | (Raise e, s'') => (Raise e, s'')
    end.


(** ** The database behind the engine *)

Record Database := {
  tables : gmap string (list row);   (* committed rows, in insertion order *)
  clock : Z;                         (* what func.now() evaluates to *)
  foreign_keys : bool;               (* does the backend enforce FOREIGN KEY
                                        (PostgreSQL: yes; SQLite: only with the
                                        pragma, which the code never sets) *)
  uuid_source : nat → string;        (* the strings uuid.uuid4() will return *)
  uuid_count : nat                   (* how many of them have been used *)
}.

Definition table (db : Database) (m : Model) : list row :=
  tables db !!! tablename m.

Definition with_tables (t : gmap string (list row)) (db : Database) : Database :=
  {| tables := t; clock := clock db; foreign_keys := foreign_keys db;
     uuid_source := uuid_source db; uuid_count := uuid_count db |}.

Definition set_table (m : Model) (rows : list row) (db : Database) : Database :=
  with_tables (<[tablename m := rows]> (tables db)) db.

Definition take_uuid (db : Database) : string * Database :=
  (uuid_source db (uuid_count db),
   {| tables := tables db; clock := clock db; foreign_keys := foreign_keys db;
      uuid_source := uuid_source db; uuid_count := S (uuid_count db) |}).

Definition is_null (v : value) : bool :=
  match v with VNull => true | _ => false end.

(** The mapped classes of models.py, for the reverse direction of a foreign
    key. *)
Definition mapped_classes : list Model :=
  [Artwork; Exhibition; InstallationPhoto; ArtworkAppearance].

(** NOT NULL: [nullable=False] columns and the primary key. *)
Definition not_null_ok (m : Model) (r : row) : bool :=
  forallb (λ c, implb (primary_key c || negb (nullable c))
                      (negb (is_null (col r (name c)))))
          (columns m).

(** PRIMARY KEY and [unique=True]: no other row holds the same non-NULL value. *)
Definition unique_ok (m : Model) (others : list row) (r : row) : bool :=
  forallb (λ c, implb (primary_key c || unique c)
                      (forallb (λ o, negb (sql_eq (col o (name c)) (col r (name c))))
                               others))
          (columns m).

(** FOREIGN KEY, where the backend enforces it: a non-NULL reference names an
    existing parent row. *)
Definition foreign_keys_ok (db : Database) (m : Model) (r : row) : bool :=
  implb (foreign_keys db)
    (forallb (λ c, match foreign_key c with
                   | None => true
                   | Some (t, k) =>
                       is_null (col r (name c))
                       || existsb (λ p, sql_eq (col p k) (col r (name c)))
                                  (tables db !!! t)
                   end)
             (columns m)).

(** Is the primary key [pk] of a row of [m] referenced from some child table? *)
Definition referenced (db : Database) (m : Model) (pk : value) : bool :=
  existsb (λ child,
    existsb (λ c, match foreign_key c with
                  | None => false
                  | Some (t, k) =>
                      String.eqb t (tablename m) && String.eqb k "id"
                      && existsb (λ r, sql_eq (col r (name c)) pk) (table db child)
                  end)
            (columns child))
    mapped_classes.

(** INSERT INTO m VALUES r *)
Definition sql_insert (m : Model) (r : row) (db : Database) : outcome Database :=
  if negb (not_null_ok m r) then Raise (IntegrityError "NOT NULL constraint failed")
  else if negb (unique_ok m (table db m) r) then Raise (IntegrityError "UNIQUE constraint failed")
  else if negb (foreign_keys_ok db m r) then Raise (IntegrityError "FOREIGN KEY constraint failed")
  else Return (set_table m (table db m ++ [r]) db).

(** UPDATE m SET r WHERE id = pk.  No foreign key of the schema is declared
    ON UPDATE CASCADE, so an enforcing backend refuses to change a primary
    key that is still referenced. *)
Definition sql_update (m : Model) (pk : value) (r : row) (db : Database) : outcome Database :=
  let others := List.filter (λ o, negb (sql_eq (col o "id") pk)) (table db m) in
  if negb (not_null_ok m r) then Raise (IntegrityError "NOT NULL constraint failed")
  else if negb (unique_ok m others r) then Raise (IntegrityError "UNIQUE constraint failed")
  else if negb (foreign_keys_ok db m r) then Raise (IntegrityError "FOREIGN KEY constraint failed")
  else if foreign_keys db && negb (py_eq (col r "id") pk) && referenced db m pk
       then Raise (IntegrityError "FOREIGN KEY constraint failed")
  else Return (set_table m (List.map (λ o, if sql_eq (col o "id") pk then r else o) (table db m)) db).

(** DELETE FROM m WHERE id = pk *)
Definition sql_delete (m : Model) (pk : value) (t : gmap string (list row)) : gmap string (list row) :=
  <[tablename m := List.filter (λ o, negb (sql_eq (col o "id") pk)) (t !!! tablename m)]> t.

(** [session.delete(obj)] followed by a flush, for the object of class [m]
    with primary key [pk]: every one-to-many relationship of [m] is declared
    with [cascade="all, delete-orphan"], so the ORM loads the children
    ([child.fk = pk]), deletes each of them in the same way, and then deletes
    the row itself. *)
Fixpoint orm_delete (m : Model) (pk : value) (t : gmap string (list row)) : gmap string (list row) :=
  match m with
  | MkModel tn _ children _ =>
      let t' :=
        fold_left
          (λ acc rel,
             match rel with
             | (_, fk, child) =>
                 fold_left (λ acc' c, orm_delete child (col c "id") acc')
                           (List.filter (λ c, sql_eq (col c fk) pk) (acc !!! tablename child))
                           acc
             end)
          children t in
      <[tn := List.filter (λ o, negb (sql_eq (col o "id") pk)) (t' !!! tn)]> t'
  end.

(** The row an INSERT writes for the attributes [a] of a new object: every
    column, with the column default where the attribute is unset or [None]. *)
Definition fill_default (c : Column) (v : value) (db : Database) : value * Database :=
  if is_null v then
    match default_ c with
    | Some uuid4 => let '(u, db') := take_uuid db in (VStr u, db')
    | Some func_now => (VTime (clock db), db)
    | Some (const d) => (d, db)
    | None => (VNull, db)
    end
  else (v, db).

Definition insert_row (m : Model) (a : row) (db : Database) : row * Database :=
  fold_left (λ '(r, db) c,
               let '(v, db') := fill_default c (col a (name c)) db in
               (<[name c := v]> r, db'))
            (columns m) (∅, db).

(** The row an UPDATE writes: the attributes of the object, and [onupdate]
    columns that the caller did not change itself. *)
Definition update_row (m : Model) (old a : row) (db : Database) : row :=
  fold_left (λ r c,
               let v := if py_eq (col a (name c)) (col old (name c)) then
                          match onupdate c with
                          | Some func_now => VTime (clock db)
                          | _ => col old (name c)
                          end
                        else col a (name c) in
               <[name c := v]> r)
            (columns m) ∅.

Definition changed (m : Model) (old a : row) : bool :=
  existsb (λ c, negb (py_eq (col a (name c)) (col old (name c)))) (columns m).

(** ** The ORM session *)

(** States of a mapped object with respect to a session. *)
Inductive ObjState := Transient | Pending | Persistent | MarkedDeleted | Detached.

(** A Python object of a mapped class: its current attributes, the row it
    was loaded from or flushed to ([committed]) and that row's primary key. *)
Record Obj := {
  cls : Model;
  attrs : row;
  committed : row;
  identity : value;
  state : ObjState
}.

(** A [Session] bound to the engine.  [objects] is the heap of mapped
    objects the code holds references to; a reference is an index into it.
    The session factory is created with [autoflush=False] and nothing in the
    repository calls [flush()], so the database only changes inside
    [commit()].  Every loaded row gets an object of its own. *)
Record Session := {
  bind : Database;
  objects : list Obj
}.

Definition ref := nat.

Abbreviation ORM := (Py Session).

(** [get_session()] *)
Definition get_session (db : Database) : Session :=
  {| bind := db; objects := [] |}.

Definition deref (s : Session) (r : ref) : option Obj := objects s !! r.

Definition alloc (o : Obj) : ORM ref :=
  λ s, (Return (length (objects s)),
        {| bind := bind s; objects := objects s ++ [o] |}).

Definition modify (r : ref) (f : Obj → Obj) : ORM unit :=
  λ s, (Return tt,
        {| bind := bind s; objects := alter f r (objects s) |}).

Definition set_attrs (a : row) (o : Obj) : Obj :=
  {| cls := cls o; attrs := a; committed := committed o;
     identity := identity o; state := state o |}.

Definition set_state (st : ObjState) (o : Obj) : Obj :=
  {| cls := cls o; attrs := attrs o; committed := committed o;
     identity := identity o; state := st |}.

Definition loaded (m : Model) (r : row) : Obj :=
  {| cls := m; attrs := r; committed := r; identity := col r "id";
     state := Persistent |}.

(** [getattr(obj, key)] and [setattr(obj, key, value)] on a column attribute. *)
Definition getattr (r : ref) (key : string) : ORM value :=
  λ s, (Return (from_option (λ o, col (attrs o) key) VNull (deref s r)), s).

Definition setattr (r : ref) (key : string) (v : value) : ORM unit :=
  modify r (λ o, set_attrs (<[key := v]> (attrs o)) o).

(** [hasattr(obj, key)] on the keys that [names_fields] admits: there it is
    true exactly for the mapped columns.  Python's [hasattr] is also true
    for the relationships of the class and for the Python-level attributes
    of the object (underscore names, [metadata], [registry]); assigning a
    column value to one of those is outside the model: the statements
    about [update] and [create] assume [names_fields] of the keyword
    arguments, or that every keyword names a column. *)
Definition hasattr (m : Model) (key : string) : bool := is_column m key.



(** The constructor call [self.model] of keyword arguments: the declarative constructor refuses a keyword that is
    not an attribute of the class and sets the others. *)
Definition construct (m : Model) (kwargs : row) : ORM ref :=
  if forallb (hasattr m) (fst <$> map_to_list kwargs)
  then alloc {| cls := m; attrs := kwargs; committed := ∅; identity := VNull;
                state := Transient |}
  else raise (TypeError "invalid keyword argument").

(** [db.add(obj)] *)
Definition add (r : ref) : ORM unit :=
  modify r (λ o, match state o with
                 | Transient | Detached => set_state Pending o
                 | _ => o
                 end).

(** [db.delete(obj)] *)
Definition delete_ (r : ref) : ORM unit :=
  modify r (λ o, match state o with
                 | Persistent => set_state MarkedDeleted o
                 | _ => o
                 end).

(** *** Queries

    [db.query(M).filter(p)] reads the committed tables: with
    [autoflush=False] pending changes of the session are not written before
    a query. *)
Definition select (m : Model) (p : row → bool) (s : Session) : list row :=
  List.filter p (table (bind s) m).

Fixpoint load_all (m : Model) (rows : list row) : ORM (list ref) :=
  match rows with
  | [] => mret []
  | r :: rows' =>
      o ← alloc (loaded m r);
      os ← load_all m rows';
      mret (o :: os)
  end.

(** [.all()] *)
Definition query_all (m : Model) (p : row → bool) : ORM (list ref) :=
  λ s, load_all m (select m p s) s.

(** [.first()] *)
Definition query_first (m : Model) (p : row → bool) : ORM (option ref) :=
  λ s, match select m p s with
       | [] => (Return None, s)
       | r :: _ => (o ← alloc (loaded m r); mret (Some o)) s
       end.

(** [.count()] *)
Definition query_count (m : Model) (p : row → bool) : ORM Z :=
  λ s, (Return (Z.of_nat (length (select m p s))), s).

Definition number (v : value) : option Q :=
  match v with VNum q => Some q | _ => None end.

Definition Qsum (l : list Q) : Q := fold_right Qplus 0%Q l.

(** [db.query(func.avg(M.c)).scalar()]: the mean of the non-NULL values, and
    [None] when there is none. *)
Definition query_avg (m : Model) (c : string) : ORM (option Q) :=
  λ s, let vs := omap (λ r, number (col r c)) (table (bind s) m) in
       (Return (match vs with
                | [] => None
                | _ => Some (Qsum vs / inject_Z (Z.of_nat (length vs)))%Q
                end), s).

(** *** The unit of work *)

Definition find_row (db : Database) (m : Model) (pk : value) : option row :=
  head (List.filter (λ r, sql_eq (col r "id") pk) (table db m)).

(** Write one object: INSERT for a pending one, UPDATE for a persistent one
    whose column attributes differ from the row it was loaded from. *)
Definition flush_save (o : Obj) : Py Database Obj :=
  λ db,
    match state o with
    | Pending =>
        let '(r, db1) := insert_row (cls o) (attrs o) db in
        match sql_insert (cls o) r db1 with
        | Return db2 => (Return (loaded (cls o) r), db2)
        | Raise e => (Raise e, db1)
        end
    | Persistent =>
        if changed (cls o) (committed o) (attrs o) then
          let r := update_row (cls o) (committed o) (attrs o) db in
          match sql_update (cls o) (identity o) r db with
          | Return db2 => (Return (loaded (cls o) r), db2)
          | Raise e => (Raise e, db)
          end
        else (Return o, db)
    | _ => (Return o, db)
    end.

(** Delete the row of an object marked by [db.delete], with the cascade. *)
Definition flush_delete (o : Obj) : Py Database Obj :=
  λ db,
    match state o with
    | MarkedDeleted =>
        (Return (set_state Detached o),
         with_tables (orm_delete (cls o) (identity o) (tables db)) db)
    | _ => (Return o, db)
    end.

Fixpoint flush_each (f : Obj → Py Database Obj) (os : list Obj) : Py Database (list Obj) :=
  match os with
  | [] => mret []
  | o :: os' =>
      o' ← f o;
      os'' ← flush_each f os';
      mret (o' :: os'')
  end.

(** The flush: all INSERTs and UPDATEs, then all DELETEs, each group in the
    order in which the objects entered the session. *)
Definition flush (os : list Obj) : Py Database (list Obj) :=
  os' ← flush_each flush_save os;
  flush_each flush_delete os'.

(** After the transaction ends every object is expired: its attributes are
    read again from its row, and an object whose row is gone is detached. *)
Definition expire (db : Database) (o : Obj) : Obj :=
  match state o with
  | Persistent | MarkedDeleted =>
      match find_row db (cls o) (identity o) with
      | Some r => loaded (cls o) r
      | None => set_state Detached o
      end
  | _ => o
  end.

(** [db.commit()]: flush, then COMMIT.  A statement that violates a
    constraint raises [IntegrityError] and aborts the transaction: no table
    changes. *)
Definition commit : ORM unit :=
  λ s,
    match flush (objects s) (bind s) with
    | (Return os, db) =>
        (Return tt, {| bind := db; objects := expire db <$> os |})
    | (Raise e, db) =>
        (Raise e, {| bind := with_tables (tables (bind s)) db; objects := objects s |})
    end.

(** [db.rollback()]: pending objects are expunged, the others go back to
    their committed row. *)
Definition rollback : ORM unit :=
  λ s,
    (Return tt,
     {| bind := bind s;
        objects := (λ o, match state o with
                         | Pending => set_state Transient o
                         | Persistent | MarkedDeleted => expire (bind s) (set_attrs (committed o) o)
                         | _ => o
                         end) <$> objects s |}).

(** [session.close()]: the transaction in progress, if any, is rolled back
    and every object leaves the session. *)
Definition close : ORM unit :=
  λ s,
    (Return tt,
     {| bind := bind s;
        objects := (λ o, match state o with
                         | Pending | Transient => set_state Transient o
                         | _ => set_state Detached o
                         end) <$> objects s |}).

(** [db.refresh(obj)] *)
Definition refresh (r : ref) : ORM unit :=
  λ s,
    match deref s r with
    | Some o =>
        match state o with
        | Persistent | MarkedDeleted =>
            match find_row (bind s) (cls o) (identity o) with
            | Some row' => modify r (set_attrs row') s
            | None => (Raise (InvalidRequestError "Could not refresh instance"), s)
            end
        | _ => (Raise (InvalidRequestError "Instance is not persistent within this Session"), s)
        end
    | None => (Raise (InvalidRequestError "Instance is not persistent within this Session"), s)
    end.

(** ** crud.py

    The calls to [logger] are left out: they read attributes and write to
    the log only. *)

(** *** BaseCRUD *)

Definition create (model : Model) (kwargs : row) : ORM ref :=
  try_except
    (db_obj ← construct model kwargs;
     add db_obj;;
     commit;;
     refresh db_obj;;
     mret db_obj)
    (λ e, rollback;; raise e).

Definition get_by_id (model : Model) (id : string) : ORM (option ref) :=
  query_first model (λ r, sql_eq (col r "id") (VStr id)).





Definition delete (model : Model) (id : string) : ORM bool :=
  try_except
    (found ← get_by_id model id;
     match found with
     | None => mret false
     | Some db_obj =>
         delete_ db_obj;;
         commit;;
         mret true
     end)
    (λ e, rollback;; raise e).

(** *** ArtworkCRUD *)

Section ArtworkSearch.

(** The backend's [ILIKE '%text%'] is left abstract. *)
Variable ilike_contains : string → value → bool.




End ArtworkSearch.

Definition get_by_catalog_number (catalog_number : string) : ORM (option ref) :=
  query_first Artwork (λ r, sql_eq (col r "catalog_number") (VStr catalog_number)).

Definition filter_if (bound : option Q) (p : Q → row → bool) (q : row → bool) : row → bool :=
  match bound with
  | Some b => λ r, q r && p b r
  | None => q
  end.

Definition search_by_dimensions (min_width max_width min_height max_height : option Q)
  : ORM (list ref) :=
  let query := λ _ : row, true in
  let query := filter_if min_width (λ b r, sql_ge (col r "width") (VNum b)) query in
  let query := filter_if max_width (λ b r, sql_le (col r "width") (VNum b)) query in
  let query := filter_if min_height (λ b r, sql_ge (col r "height") (VNum b)) query in
  let query := filter_if max_height (λ b r, sql_le (col r "height") (VNum b)) query in
  query_all Artwork query.


(** *** ExhibitionCRUD *)

Section ILike.

(** The backend's [ILIKE '%name%'] is left abstract. *)
Variable ilike_contains : string → value → bool.

Definition search_by_name (name : string) (exact : bool) : ORM (list ref) :=
  if exact
  then query_all Exhibition (λ r, sql_eq (col r "name") (VStr name))
  else query_all Exhibition (λ r, ilike_contains name (col r "name")).


End ILike.

(** [if start_date:] holds for every [datetime] and fails for [None]. *)
Definition get_by_date_range (start_date end_date : option Z) : ORM (list ref) :=
  let query := λ _ : row, true in
  let query :=
    match start_date with
    | Some d => λ r, query r && sql_ge (col r "end_date") (VTime d)
    | None => query
    end in
  let query :=
    match end_date with
    | Some d => λ r, query r && sql_le (col r "start_date") (VTime d)
    | None => query
    end in
  query_all Exhibition query.

(** [now] is what [datetime.now()] returns. *)
Definition get_current_exhibitions (now : Z) : ORM (list ref) :=
  query_all Exhibition
    (λ r, sql_le (col r "start_date") (VTime now) && sql_ge (col r "end_date") (VTime now)).


(** *** InstallationPhotoCRUD *)

Definition get_by_exhibition (exhibition_id : value) : ORM (list ref) :=
  query_all InstallationPhoto (λ r, sql_eq (col r "exhibition_id") exhibition_id).



Section PhotoSearch.

Variable ilike_contains : string → value → bool.


End PhotoSearch.


(** *** ArtworkAppearanceCRUD *)

Definition get_by_photo (photo_id : value) : ORM (list ref) :=
  query_all ArtworkAppearance (λ r, sql_eq (col r "photo_id") photo_id).


Definition get_verified : ORM (list ref) :=
  query_all ArtworkAppearance (λ r, sql_eq (col r "verified") (VBool true)).

Definition get_unverified : ORM (list ref) :=
  query_all ArtworkAppearance (λ r, sql_eq (col r "verified") (VBool false)).


(** [now] is what [datetime.now()] returns; [verified_by] is the string of
    the signature, [notes] the string or [None]: [if notes:] holds for a
    non-empty string and fails for [None] and for the empty string. *)
Definition verify_appearance (now : Z) (id verified_by : string) (notes : option string)
  : ORM bool :=
  try_except
    (found ← get_by_id ArtworkAppearance id;
     match found with
     | None => mret false
     | Some db_obj =>
         setattr db_obj "verified" (VBool true);;
         setattr db_obj "verified_by" (VStr verified_by);;
         setattr db_obj "verification_date" (VTime now);;
         match notes with
         | Some (String c n) => setattr db_obj "notes" (VStr (String c n))
         | _ => mret tt
         end;;
         commit;;
         mret true
     end)
    (λ e, rollback;; raise e).

Record Statistics := {
  total_appearances : Z;
  verified_appearances : Z;
  unverified_appearances : Z;
  verification_rate : Q;
  average_confidence : Q
}.

Definition get_statistics : ORM Statistics :=
  total ← query_count ArtworkAppearance (λ _, true);
  verified ← query_count ArtworkAppearance (λ r, sql_eq (col r "verified") (VBool true));
  avg ← query_avg ArtworkAppearance "matching_confidence";
  (* [x or 0]: None and a zero mean both give 0 *)
  let avg_confidence :=
    match avg with
    | Some q => if Qeq_bool q 0 then 0%Q else q
    | None => 0%Q
    end in
  mret {| total_appearances := total;
          verified_appearances := verified;
          unverified_appearances := total - verified;
          verification_rate :=
            if (0 <? total)%Z then (inject_Z verified / inject_Z total)%Q else 0%Q;
          average_confidence := avg_confidence |}.

(** ** database.py *)

(** The three methods of a session that [get_db] calls.  [get_db] is
    written against them, so that what it guarantees can be stated for
    methods that fail in any way and at any point. *)
Record SessionMethods (S : Type) := {
  session_commit : Py S unit;
  session_rollback : Py S unit;
  session_close : Py S unit
}.
Arguments session_commit {S} _.
Arguments session_rollback {S} _.
Arguments session_close {S} _.

Definition orm_session : SessionMethods Session :=
  {| session_commit := commit; session_rollback := rollback; session_close := close |}.

Section get_db.

Context {S : Type} (session : SessionMethods S).

(** The generator behind [with get_db() as db: body], run on the session
    that [get_session()] returned: [body] is what executes at the [yield]. *)
Definition get_db {A} (body : Py S A) : Py S A :=
  try_finally
    (try_except
       (r ← body;
        session_commit session;;
        mret r)
       (λ e, session_rollback session;; raise e))
    (session_close session).

End get_db.

(** The [database] section of the configuration; [config_url] is [None]
    when the section has no [url] key, [config_port] is the port as it is
    formatted into the URL. *)
Record DatabaseConfig := {
  config_url : option string;
  config_host : string;
  config_port : string;
  config_database : string;
  config_user : string;
  config_password : string
}.

Definition get_database_url (db_config : DatabaseConfig) : string :=
  match config_url db_config with
  | Some (String c u) => String c u
  | _ =>
      match config_password db_config with
      | String _ _ =>
          "postgresql://" +:+ config_user db_config +:+ ":" +:+ config_password db_config
          +:+ "@" +:+ config_host db_config +:+ ":" +:+ config_port db_config
          +:+ "/" +:+ config_database db_config
      | EmptyString =>
          "postgresql://" +:+ config_user db_config
          +:+ "@" +:+ config_host db_config +:+ ":" +:+ config_port db_config
          +:+ "/" +:+ config_database db_config
      end
  end.

(** The arguments [get_engine] passes to [create_engine]. *)
Record EngineArguments := {
  engine_url : string;
  static_pool : bool;                 (* poolclass=StaticPool *)
  check_same_thread : option bool;    (* connect_args *)
  engine_pool_size : option Z;
  max_overflow : option Z;
  pool_pre_ping : bool
}.

(** [get_engine()] on the module's global [engine]. *)
Definition get_engine (db_config : DatabaseConfig)
  : option EngineArguments → EngineArguments * option EngineArguments :=
  λ engine,
    match engine with
    | Some e => (e, engine)
    | None =>
        let database_url := get_database_url db_config in
        let e :=
          if String.prefix "sqlite" database_url
          then {| engine_url := database_url; static_pool := true;
                  check_same_thread := Some false; engine_pool_size := None;
                  max_overflow := None; pool_pre_ping := false |}
          else {| engine_url := database_url; static_pool := false;
                  check_same_thread := None; engine_pool_size := Some 10;
                  max_overflow := Some 20; pool_pre_ping := true |} in
        (e, Some e)
    end.

(** [with get_db() as db: body] on the engine's database. *)
Definition with_get_db {A} (body : ORM A) : Py Database A :=
  λ db, let '(r, s) := get_db orm_session body (get_session db) in (r, bind s).

(** [test_connection()]: [execute] is [db.execute(text("SELECT 1"))]. *)
Definition test_connection {S} (session : SessionMethods S) (execute : Py S unit) : Py S bool :=
  λ s,
    match get_db session execute s with
    | (Return _, s') => (Return true, s')
    | (Raise e, s') =>
        if isinstance_Exception e then (Return false, s') else (Raise e, s')
    end.

(** [str.replace(old, new)]: the occurrences of [old] are replaced from left
    to right without overlap; an empty [old] matches before every character
    and at the end. *)
Fixpoint replace_from (old new : string) (skip : nat) (s : string) : string :=
  match s with
  | EmptyString => EmptyString
  | String c s' =>
      match skip with
      | S k => replace_from old new k s'
      | O =>
          if String.prefix old s
          then new +:+ replace_from old new (String.length old - 1) s'
          else String c (replace_from old new 0 s')
      end
  end.

Fixpoint interleave (new s : string) : string :=
  match s with
  | EmptyString => EmptyString
  | String c s' => String c (new +:+ interleave new s')
  end.

Definition replace (s old new : string) : string :=
  match old with
  | EmptyString => new +:+ interleave new s
  | _ => replace_from old new 0 s
  end.

(** [sub in s] *)
Fixpoint contains (sub s : string) : bool :=
  String.prefix sub s
  || match s with
     | EmptyString => false
     | String _ s' => contains sub s'
     end.

(** What [get_db_info] reads from the engine: [str(engine.url)] and
    [engine.url.password], the counters of [engine.pool], the database, and
    the answer of the backend to the version query (or the error of
    executing it). *)
Record Engine := {
  url : string;
  url_password : option string;
  pool_size : Z;
  pool_checkedout : Z;
  pool_overflow : Z;
  pool_checkedin : Z;
  database : Database;
  select_version : outcome string
}.

(** [str(e)] *)
Definition str_exn (e : exn) : string :=
  match e with
  | IntegrityError d | InvalidRequestError d | TypeError d | Exception d | BaseException d => d
  end.

Definition get_db_info (engine : Engine) : outcome (gmap string value) :=
  let body : ORM (gmap string value) :=
    version ←
      (if contains "sqlite" (url engine)
       then (v ← (λ s, (select_version engine, s)); mret ("SQLite " +:+ v))
       else (λ s, (select_version engine, s)));
    let pool_info : gmap string value :=
      if negb (contains "sqlite" (url engine))
      then {[ "pool_size" := VNum (inject_Z (pool_size engine));
              "checked_out" := VNum (inject_Z (pool_checkedout engine));
              "overflow" := VNum (inject_Z (pool_overflow engine));
              "checked_in" := VNum (inject_Z (pool_checkedin engine)) ]}
      else ∅ in
    mret (<["url" :=
             VStr (replace (url engine)
                           (match url_password engine with
                            | Some p => if String.eqb p "" then "" else p
                            | None => ""
                            end)
                           "***")]>
          (<["version" := VStr version]> pool_info)) in
  match with_get_db body (database engine) with
  | (Return info, _) => Return info
  | (Raise e, _) =>
      if isinstance_Exception e
      then Return {[ "error" := VStr (str_exn e) ]}
      else Raise e
  end.

(** ** database_setup.py *)

(** [for x in xs: if test x: found = x; break] *)
Fixpoint find_first {St A} (xs : list A) (test : A → Py St bool) : Py St (option A) :=
  match xs with
  | [] => mret None
  | x :: xs' =>
      b ← test x;
      if b : bool then mret (Some x) else find_first xs' test
  end.

Section create_sample_data.

Variable ilike_contains : string → value → bool.

(** The block under [with get_db() as db:]; a [datetime] is written in
    seconds since 1970-01-01 00:00. *)
Definition create_sample_data_body : ORM bool :=
  (* Check if sample artwork already exists *)
  existing_artwork ← get_by_catalog_number "MoMA-472.1941";
  artwork ←
    match existing_artwork with
    | Some found => mret found
    | None =>
        create Artwork
          {[ "title" := VStr "The Starry Night";
             "artist" := VStr "Vincent van Gogh";
             "width" := VNum (737 # 10);
             "height" := VNum (921 # 10);
             "medium" := VStr "Oil on canvas";
             "creation_date" := VStr "1889";
             "description" := VStr "A swirling night sky over a village";
             "catalog_number" := VStr "MoMA-472.1941" ]}
    end;
  (* Check if sample exhibition already exists *)
  existing_exhibitions ←
    search_by_name ilike_contains "Van Gogh and the Colors of the Night" true;
  exhibition ←
    match existing_exhibitions with
    | first :: _ => mret first
    | [] =>
        create Exhibition
          {[ "name" := VStr "Van Gogh and the Colors of the Night";
             "museum" := VStr "Museum of Modern Art";
             "gallery" := VStr "Gallery 2";
             "city" := VStr "New York";
             "country" := VStr "USA";
             "start_date" := VTime 1696118400;
             "end_date" := VTime 1705276800;
             "curator" := VStr "Dr. Sarah Johnson";
             "description" := VStr "An exploration of Van Gogh's nocturnal masterpieces";
             "type" := VStr "temporary" ]}
    end;
  (* Check if sample photo already exists *)
  exhibition_id ← getattr exhibition "id";
  existing_photos ← get_by_exhibition exhibition_id;
  sample_photo ←
    find_first existing_photos
      (λ photo,
         original_filename ← getattr photo "original_filename";
         mret (py_eq original_filename (VStr "exhibition_photo_001.jpg")));
  photo ←
    match sample_photo with
    | Some found => mret found
    | None =>
        exhibition_id ← getattr exhibition "id";
        create InstallationPhoto
          {[ "exhibition_id" := exhibition_id;
             "image_path" := VStr "/data/raw/exhibition_photo_001.jpg";
             "original_filename" := VStr "exhibition_photo_001.jpg";
             "width" := VNum 1920;
             "height" := VNum 1080;
             "format" := VStr "jpg";
             "capture_date" := VTime 1697328000;
             "photographer" := VStr "Museum Documentation Team";
             "room" := VStr "Gallery 2";
             "view_type" := VStr "overview" ]}
    end;
  (* Check if sample appearance already exists *)
  photo_id ← getattr photo "id";
  existing_appearances ← get_by_photo photo_id;
  sample_appearance ←
    find_first existing_appearances
      (λ appearance,
         artwork_id ← getattr appearance "artwork_id";
         id ← getattr artwork "id";
         mret (py_eq artwork_id id));
  appearance ←
    match sample_appearance with
    | Some found => mret found
    | None =>
        artwork_id ← getattr artwork "id";
        photo_id ← getattr photo "id";
        create ArtworkAppearance
          {[ "artwork_id" := artwork_id;
             "photo_id" := photo_id;
             "bbox_x" := VNum (2 # 10);
             "bbox_y" := VNum (3 # 10);
             "bbox_width" := VNum (4 # 10);
             "bbox_height" := VNum (5 # 10);
             "detection_confidence" := VNum (95 # 100);
             "matching_confidence" := VNum (87 # 100);
             "visible_percentage" := VNum (85 # 100);
             "occlusion_level" := VStr "none";
             "lighting_quality" := VStr "good" ]}
    end;
  mret true.

(** [create_sample_data()]: any [Exception] is logged and turned into
    [False]. *)
Definition create_sample_data : Py Database bool :=
  λ db,
    match with_get_db create_sample_data_body db with
    | (Return ok, db') => (Return ok, db')
    | (Raise e, db') =>
        if isinstance_Exception e then (Return false, db') else (Raise e, db')
    end.

End create_sample_data.

Section test_crud_operations.

Variable ilike_contains : string → value → bool.



End test_crud_operations.

(** ** Vocabulary of the statements *)

#[global] Instance Q_eq_dec : EqDecision Q.
Proof. solve_decision. Defined.

#[global] Instance value_eq_dec : EqDecision value.
Proof. solve_decision. Defined.

(** The matching confidence of an appearance row. *)
Definition confidence (r : row) : Q :=
  match col r "matching_confidence" with VNum q => q | _ => 0%Q end.

(** [matching_confidence = Column(Float, nullable=False)]: the cell holds a number. *)
Definition has_confidence (r : row) : Prop := is_Some (number (col r "matching_confidence")).

Definition statistics_of (db : Database) : outcome Statistics :=
  fst (get_statistics (get_session db)).

(** The fixture of the specification, with concrete rows. *)
Definition statistics_fixture : Database :=
  {| tables :=
       {[ "artwork_appearances" :=
            [ {[ "id" := VStr "ap-1"; "verified" := VBool true;
                 "matching_confidence" := VNum (9 # 10) ]};
              {[ "id" := VStr "ap-2"; "verified" := VBool false;
                 "matching_confidence" := VNum (5 # 10) ]};
              {[ "id" := VStr "ap-3"; "verified" := VBool true;
                 "matching_confidence" := VNum (7 # 10) ]} ] ]};
     clock := 0; foreign_keys := false;
     uuid_source := λ _, ""; uuid_count := 0 |}.

(** The rows held by the objects a query returned. *)
Definition rows_of (s : Session) (refs : list ref) : list row :=
  omap (λ r, attrs <$> deref s r) refs.

(** Running a query in a session of its own and reading the objects it
    returns. *)
Definition result_rows (q : ORM (list ref)) (db : Database) : list row :=
  match q (get_session db) with
  | (Return refs, s) => rows_of s refs
  | (Raise _, _) => []
  end.

(** A cell lies within the supplied bounds: each bound that is given is met
    by a number stored in the cell. *)
Definition within (lo hi : option Q) (v : value) : Prop :=
  (∀ b, lo = Some b → ∃ w, v = VNum w ∧ (b <= w)%Q)
  ∧ (∀ b, hi = Some b → ∃ w, v = VNum w ∧ (w <= b)%Q).

Definition dimensions_fixture : Database :=
  {| tables :=
       {[ "artworks" :=
            [ {[ "id" := VStr "aw-1"; "title" := VStr "Small"; "artist" := VStr "A";
                 "width" := VNum 49; "height" := VNum 30 ]};
              {[ "id" := VStr "aw-2"; "title" := VStr "Exact"; "artist" := VStr "B";
                 "width" := VNum 50; "height" := VNum 60 ]};
              {[ "id" := VStr "aw-3"; "title" := VStr "Unmeasured"; "artist" := VStr "C";
                 "width" := VNull; "height" := VNull ]} ] ]};
     clock := 0; foreign_keys := false;
     uuid_source := λ _, ""; uuid_count := 0 |}.

(** The engine that [config.py] configures by default: the SQLite file,
    whose URL carries no password. *)
Definition default_engine : Engine :=
  {| url := "sqlite:///artwork_db.sqlite";
     url_password := None;
     pool_size := 0; pool_checkedout := 0; pool_overflow := 0; pool_checkedin := 0;
     database := {| tables := ∅; clock := 0; foreign_keys := false;
                    uuid_source := λ _, ""; uuid_count := 0 |};
     select_version := Return "3.45.1" |}.

(** The [url] entry of what [get_db_info] reports. *)
Definition reported_url (engine : Engine) : option value :=
  match get_db_info engine with
  | Return info => info !! "url"
  | Raise _ => None
  end.

(** A body of a [with get_db() as db:] block that stages a new record with
    [db.add] and then fails with [e] before anything is committed. *)
Definition staged_write_then_error (model : Model) (kwargs : row) (e : exn) : ORM unit :=
  db_obj ← construct model kwargs;
  add db_obj;;
  raise e.

(** A database with one artwork. *)
Definition one_artwork : Database :=
  {| tables :=
       {[ "artworks" :=
            [ {[ "id" := VStr "aw-1"; "title" := VStr "The Starry Night";
                 "artist" := VStr "Vincent van Gogh";
                 "catalog_number" := VStr "MoMA-472.1941" ]} ] ]};
     clock := 100; foreign_keys := true;
     uuid_source := λ n, "uuid-" +:+ String (Ascii.ascii_of_nat (65 + n)) "";
     uuid_count := 0 |}.

(** A mapped class with the [id] primary key and distinct column names (the
    four classes of models.py are). *)
Definition well_formed (m : Model) : Prop :=
  id_column ∈ columns m ∧ NoDup (column_names m).


(** An object that mirrors a row of the database: it was loaded from the row
    (or flushed to it), holds no change, and the row is the one found under
    its primary key. *)
Definition in_step (db : Database) (o : Obj) : Prop :=
  ∃ m r, o = loaded m r ∧ find_row db m (col r "id") = Some r.

(** A session without pending work. *)
Definition clean (s : Session) : Prop := Forall (in_step (bind s)) (objects s).

(** The entity of class [m] stored under [id]: the row [get_by_id] loads. *)
Definition stored (db : Database) (m : Model) (id : string) (r : row) : Prop :=
  find_row db m (VStr id) = Some r.






(** [rows] without the rows whose primary key is one of [xs]. *)
Definition without (rows : list row) (xs : list value) : list row :=
  List.filter (λ r, forallb (λ x, negb (sql_eq (col r "id") x)) xs) rows.

(** [t'] is [t] after deletions by primary key. *)
Definition shrinks (t t' : gmap string (list row)) : Prop :=
  ∀ tn, ∃ xs, t' !!! tn = without (t !!! tn) xs.

(** The photos of an exhibition, and the appearances attached to them. *)
Definition photos_of (db : Database) (exhibition_id : string) : list row :=
  List.filter (λ p, sql_eq (col p "exhibition_id") (VStr exhibition_id))
              (table db InstallationPhoto).

Definition appearances_of (db : Database) (exhibition_id : string) : list row :=
  List.filter (λ a, existsb (λ p, sql_eq (col a "photo_id") (col p "id"))
                            (photos_of db exhibition_id))
              (table db ArtworkAppearance).

#[global] Instance exn_eq_dec : EqDecision exn.
Proof. solve_decision. Defined.

#[global] Instance outcome_eq_dec {A} `{EqDecision A} : EqDecision (outcome A).
Proof. solve_decision. Defined.

(** A database with two exhibitions: the first has two photos with one
    appearance each, the second one photo with one appearance. *)
Definition gallery : Database :=
  {| tables :=
       {[ "artworks" :=
            [ {[ "id" := VStr "aw-1"; "title" := VStr "The Starry Night";
                 "artist" := VStr "Vincent van Gogh" ]} ];
          "exhibitions" :=
            [ {[ "id" := VStr "ex-1"; "name" := VStr "Colors of the Night";
                 "museum" := VStr "MoMA" ]};
              {[ "id" := VStr "ex-2"; "name" := VStr "Sunflowers";
                 "museum" := VStr "Van Gogh Museum" ]} ];
          "installation_photos" :=
            [ {[ "id" := VStr "ph-1"; "exhibition_id" := VStr "ex-1";
                 "image_path" := VStr "/data/raw/1.jpg"; "processed" := VBool false ]};
              {[ "id" := VStr "ph-2"; "exhibition_id" := VStr "ex-1";
                 "image_path" := VStr "/data/raw/2.jpg"; "processed" := VBool false ]};
              {[ "id" := VStr "ph-3"; "exhibition_id" := VStr "ex-2";
                 "image_path" := VStr "/data/raw/3.jpg"; "processed" := VBool true ]} ];
          "artwork_appearances" :=
            [ {[ "id" := VStr "ap-1"; "artwork_id" := VStr "aw-1"; "photo_id" := VStr "ph-1";
                 "matching_confidence" := VNum (9 # 10); "verified" := VBool false ]};
              {[ "id" := VStr "ap-2"; "artwork_id" := VStr "aw-1"; "photo_id" := VStr "ph-2";
                 "matching_confidence" := VNum (5 # 10); "verified" := VBool false ]};
              {[ "id" := VStr "ap-3"; "artwork_id" := VStr "aw-1"; "photo_id" := VStr "ph-3";
                 "matching_confidence" := VNum (7 # 10); "verified" := VBool true ]} ] ]};
     clock := 200; foreign_keys := true;
     uuid_source := λ n, "uuid-" +:+ String (Ascii.ascii_of_nat (65 + n)) "";
     uuid_count := 0 |}.

(** A database whose tables are all empty, as [init_db] leaves it. *)
Definition empty_database : Database :=
  {| tables := ∅; clock := 0; foreign_keys := true;
     uuid_source := λ n, "uuid-" +:+ String (Ascii.ascii_of_nat (65 + n)) "";
     uuid_count := 0 |}.

(** A session that holds only objects as they were loaded: nothing is
    pending, changed or marked for deletion. *)
Definition loaded_only (s : Session) : Prop :=
  Forall (λ o, ∃ m r, o = loaded m r) (objects s).

(** A computation that only reads: from a session that holds only loaded
    objects it returns a value that satisfies [P], leaves the database as it
    is, and the session again holds only loaded objects. *)
Definition read_only {A} (c : ORM A) (P : A → Prop) : Prop :=
  ∀ s, loaded_only s →
    ∃ a s', c s = (Return a, s') ∧ P a ∧ bind s' = bind s ∧ loaded_only s'.

(** A database with one appearance that is not verified (on a backend that
    does not enforce foreign keys). *)
Definition one_appearance : Database :=
  {| tables :=
       {[ "artwork_appearances" :=
            [ {[ "id" := VStr "ap-1"; "artwork_id" := VStr "aw-1"; "photo_id" := VStr "ph-1";
                 "bbox_x" := VNum (2 # 10); "bbox_y" := VNum (3 # 10);
                 "bbox_width" := VNum (4 # 10); "bbox_height" := VNum (5 # 10);
                 "detection_confidence" := VNum (95 # 100);
                 "matching_confidence" := VNum (87 # 100);
                 "verified" := VBool false ]} ] ]};
     clock := 300; foreign_keys := false;
     uuid_source := λ n, "uuid-" +:+ String (Ascii.ascii_of_nat (65 + n)) "";
     uuid_count := 0 |}.

(** * Properties *)

Local Open Scope list_scope.
Set Warnings "-clear-no-such-hyp".

(** Closed decidable facts about the fixtures are settled by evaluation. *)
Ltac by_evaluation :=
  unfold stored; apply (bool_decide_unpack _); vm_compute; exact I.

Lemma py_eq_refl (v : value) : py_eq v v = true.
Proof.
  destruct v; simpl; auto using String.eqb_refl, Z.eqb_refl, eqb_reflx.
  apply Qeq_bool_iff. reflexivity.
Qed.

Lemma sql_eq_VBool (v : value) (b : bool) : sql_eq v (VBool b) = true ↔ v = VBool b.
Proof.
  destruct v as [| | |b'| |]; simpl; split; try congruence.
  - intros H. apply eqb_prop in H. congruence.
  - intros [= ->]. apply eqb_reflx.
Qed.

Lemma sql_eq_VStr (v : value) (x : string) : sql_eq v (VStr x) = true ↔ v = VStr x.
Proof.
  destruct v as [|y| | | |]; simpl; split; try congruence.
  - intros H. apply String.eqb_eq in H. congruence.
  - intros [= ->]. apply String.eqb_refl.
Qed.

Lemma length_filter_bool {A} (p : A → bool) (P : A → Prop) `{∀ x, Decision (P x)} (l : list A) :
  (∀ x, p x = true ↔ P x) →
  length (List.filter p l) = length (filter P l).
Proof.
  intros Hp. induction l as [|x l IH]; simpl; [done|].
  rewrite filter_cons. destruct (p x) eqn:E; case_decide as HP; simpl; auto.
  - apply Hp in E. done.
  - apply Hp in HP. congruence.
Qed.

Lemma omap_confidence (rows : list row) :
  Forall has_confidence rows →
  omap (λ r, number (col r "matching_confidence")) rows = confidence <$> rows.
Proof.
  induction 1 as [|r rows [q Hq] _ IH]; [done|].
  cbn [omap list_omap fmap list_fmap]. rewrite Hq. fold (omap (λ r, number (col r "matching_confidence")) rows).
  rewrite IH. unfold confidence.
  destruct (col r "matching_confidence"); simpl in Hq; congruence.
Qed.

(** C1.  On every database whose appearance rows carry a matching confidence
    (the column is [Float], [nullable=False]), [get_statistics] returns, and
    leaves the session as it was: [total_appearances] is the number of
    appearance rows, [verified_appearances] the number of rows whose
    [verified] is true, [unverified_appearances] their difference,
    [verification_rate] is verified/total and 0 for an empty table,
    [average_confidence] is the mean of [matching_confidence] over all rows
    and 0 for an empty table.  For three rows with flags true, false, true
    and confidences 0.9, 0.5, 0.7 the result is 3, 2, 1, a rate of 2/3
    (between 0.666 and 0.668) and a mean of 0.7. *)
Theorem get_statistics_aggregates :
  (∀ db : Database,
     let rows := table db ArtworkAppearance in
     Forall has_confidence rows →
     ∃ st, get_statistics (get_session db) = (Return st, get_session db)
       ∧ total_appearances st = Z.of_nat (length rows)
       ∧ verified_appearances st
         = Z.of_nat (length (filter (λ r, col r "verified" = VBool true) rows))
       ∧ unverified_appearances st = total_appearances st - verified_appearances st
       ∧ (rows = [] → verification_rate st = 0%Q ∧ average_confidence st = 0%Q)
       ∧ (rows ≠ [] →
          verification_rate st
          = (inject_Z (verified_appearances st) / inject_Z (total_appearances st))%Q
          ∧ (average_confidence st
             == Qsum (confidence <$> rows) / inject_Z (Z.of_nat (length rows)))%Q))
  ∧ (∀ (db : Database) (r1 r2 r3 : row) (q1 q2 q3 : Q),
       table db ArtworkAppearance = [r1; r2; r3] →
       col r1 "verified" = VBool true → col r1 "matching_confidence" = VNum q1 →
       col r2 "verified" = VBool false → col r2 "matching_confidence" = VNum q2 →
       col r3 "verified" = VBool true → col r3 "matching_confidence" = VNum q3 →
       (q1 == 9 # 10)%Q → (q2 == 5 # 10)%Q → (q3 == 7 # 10)%Q →
       ∃ st, statistics_of db = Return st
         ∧ total_appearances st = 3
         ∧ verified_appearances st = 2
         ∧ unverified_appearances st = 1
         ∧ (verification_rate st == 2 # 3)%Q
         ∧ (666 # 1000 < verification_rate st < 668 # 1000)%Q
         ∧ (average_confidence st == 7 # 10)%Q).
Proof.
  split.
  - intros db rows Hrows.
    unfold get_statistics, query_count, query_avg, select, mbind, Py_bind, mret, Py_ret.
    cbn [bind get_session]. fold rows.
    rewrite (omap_confidence rows Hrows).
    assert (Hall : List.filter (λ _ : row, true) rows = rows).
    { clear. induction rows; simpl; congruence. }
    rewrite Hall.
    eexists. split; [reflexivity|]. cbn [total_appearances verified_appearances
      unverified_appearances verification_rate average_confidence].
    split; [done|]. split.
    { f_equal. apply length_filter_bool. intros r. apply sql_eq_VBool. }
    split; [done|]. split.
    + intros ->. done.
    + intros Hne. destruct rows as [|r rows']; [done|]. split.
      * replace (0 <? Z.of_nat (length (r :: rows')))%Z with true; [done|].
        symmetry. apply Z.ltb_lt. simpl. lia.
      * rewrite length_fmap. cbn [fmap list_fmap].
        destruct (Qeq_bool _ 0) eqn:E; [|reflexivity].
        apply Qeq_bool_iff in E. symmetry. exact E.
  - intros db r1 r2 r3 q1 q2 q3 Ht V1 C1 V2 C2 V3 C3 H1 H2 H3.
    unfold statistics_of, get_statistics, query_count, query_avg, select, mbind, Py_bind,
      mret, Py_ret.
    cbn [bind get_session]. rewrite Ht. simpl.
    rewrite V1, V2, V3, C1, C2, C3. simpl.
    assert (Havg : (Qsum [q1; q2; q3] / inject_Z 3 == 7 # 10)%Q).
    { unfold Qsum. simpl. rewrite H1, H2, H3. reflexivity. }
    unfold Qsum in Havg. simpl in Havg.
    destruct (Qeq_bool _ 0) eqn:E.
    { apply Qeq_bool_iff in E. rewrite E in Havg. discriminate Havg. }
    eexists. split; [reflexivity|]. simpl.
    repeat split; try reflexivity. exact Havg.
Qed.

Lemma get_statistics_aggregates_witness :
  Forall has_confidence (table statistics_fixture ArtworkAppearance)
  ∧ ∃ st, get_statistics (get_session statistics_fixture)
          = (Return st, get_session statistics_fixture)
       ∧ total_appearances st = 3.
Proof.
  assert (H : Forall has_confidence (table statistics_fixture ArtworkAppearance)).
  { by_evaluation. }
  split; [exact H|].
  destruct (proj1 get_statistics_aggregates statistics_fixture H) as (st & Hst & Htot & _).
  exists st. split; [exact Hst|]. rewrite Htot. by_evaluation.
Defined.

(** ** Queries on a session *)

Lemma load_all_spec (m : Model) (rows : list row) (s : Session) :
  load_all m rows s
  = (Return (seq (length (objects s)) (length rows)),
     {| bind := bind s; objects := objects s ++ (loaded m <$> rows) |}).
Proof.
  revert s. induction rows as [|r rows IH]; intros s.
  - simpl. rewrite app_nil_r. destruct s; reflexivity.
  - cbn [load_all]. unfold mbind, Py_bind, alloc at 1.
    rewrite IH. cbn [objects bind mret Py_ret].
    rewrite length_app. cbn [length]. rewrite Nat.add_1_r.
    rewrite <- app_assoc. reflexivity.
Qed.

Lemma rows_of_loaded (db : Database) (os : list Obj) (m : Model) (rows : list row) :
  rows_of {| bind := db; objects := os ++ (loaded m <$> rows) |}
          (seq (length os) (length rows)) = rows.
Proof.
  revert os. induction rows as [|r rows IH]; intros os; [done|].
  cbn [length seq fmap list_fmap]. unfold rows_of. cbn [omap list_omap].
  unfold deref at 1. cbn [objects].
  rewrite lookup_app_r by lia. rewrite Nat.sub_diag. cbn.
  f_equal. specialize (IH (os ++ [loaded m r])).
  rewrite length_app, <- app_assoc in IH. cbn [length app] in IH.
  rewrite Nat.add_1_r in IH. exact IH.
Qed.

Lemma result_rows_query_all (m : Model) (p : row → bool) (db : Database) :
  result_rows (query_all m p) db = List.filter p (table db m).
Proof.
  unfold result_rows, query_all. rewrite load_all_spec.
  cbn [get_session objects bind length app select].
  apply (rows_of_loaded db [] m).
Qed.

Lemma elem_of_List_filter {A} (p : A → bool) (l : list A) (x : A) :
  x ∈ List.filter p l ↔ x ∈ l ∧ p x = true.
Proof. rewrite !list_elem_of_In. apply filter_In. Qed.

Lemma sql_ge_num (v : value) (b : Q) :
  sql_ge v (VNum b) = true ↔ ∃ w, v = VNum w ∧ (b <= w)%Q.
Proof.
  destruct v as [| |w| | |]; simpl; split; try congruence;
    try (by intros (? & [=] & _)).
  - intros H. exists w. split; [done|]. by apply Qle_bool_iff.
  - intros (w' & [= <-] & H). by apply Qle_bool_iff.
Qed.

Lemma sql_le_num (v : value) (b : Q) :
  sql_le v (VNum b) = true ↔ ∃ w, v = VNum w ∧ (w <= b)%Q.
Proof.
  unfold sql_le.
  destruct v as [| |w| | |]; simpl; split; try congruence;
    try (by intros (? & [=] & _)).
  - intros H. exists w. split; [done|]. by apply Qle_bool_iff.
  - intros (w' & [= <-] & H). by apply Qle_bool_iff.
Qed.

Lemma search_by_dimensions_rows (db : Database) (min_width max_width min_height max_height : option Q)
    (r : row) :
  r ∈ result_rows (search_by_dimensions min_width max_width min_height max_height) db
  ↔ r ∈ table db Artwork
    ∧ within min_width max_width (col r "width")
    ∧ within min_height max_height (col r "height").
Proof.
  unfold search_by_dimensions. rewrite result_rows_query_all, elem_of_List_filter.
  unfold within.
  destruct min_width as [a|], max_width as [b|], min_height as [c|], max_height as [d|];
    cbn [filter_if]; rewrite ?andb_true_iff, ?sql_ge_num, ?sql_le_num;
    (split; [intros [Hin H]; split; [exact Hin|]; repeat split; intros ? [=]; subst; tauto
            |intros (Hin & [H1 H2] & [H3 H4]); split; [exact Hin|];
             repeat split; eauto]).
Qed.

(** C9.  Every bound of [search_by_dimensions] is optional and inclusive.
    For an artwork row [r] of any database: [r] is returned exactly when its
    width meets the width bounds that were supplied and its height the
    height bounds that were supplied.  In particular with [min_width = b]
    only, a row of width below [b] is left out and a row of width [b] is
    returned; with [max_width = b] only, a row of width above [b] is left out
    and a row of width [b] is returned; the same holds for [min_height] and
    [max_height]; and without any bound every artwork is returned. *)
Theorem search_by_dimensions_inclusive
    (db : Database) (min_width max_width min_height max_height : option Q) (r : row) :
  r ∈ table db Artwork →
  (r ∈ result_rows (search_by_dimensions min_width max_width min_height max_height) db
   ↔ within min_width max_width (col r "width")
     ∧ within min_height max_height (col r "height"))
  ∧ (∀ b w, col r "width" = VNum w →
       ((w < b)%Q → r ∉ result_rows (search_by_dimensions (Some b) None None None) db)
       ∧ ((w == b)%Q → r ∈ result_rows (search_by_dimensions (Some b) None None None) db)
       ∧ ((b < w)%Q → r ∉ result_rows (search_by_dimensions None (Some b) None None) db)
       ∧ ((w == b)%Q → r ∈ result_rows (search_by_dimensions None (Some b) None None) db))
  ∧ (∀ b h, col r "height" = VNum h →
       ((h < b)%Q → r ∉ result_rows (search_by_dimensions None None (Some b) None) db)
       ∧ ((h == b)%Q → r ∈ result_rows (search_by_dimensions None None (Some b) None) db)
       ∧ ((b < h)%Q → r ∉ result_rows (search_by_dimensions None None None (Some b)) db)
       ∧ ((h == b)%Q → r ∈ result_rows (search_by_dimensions None None None (Some b)) db))
  ∧ result_rows (search_by_dimensions None None None None) db = table db Artwork.
Proof.
  intros Hin. split; [|split; [|split]].
  - rewrite search_by_dimensions_rows. tauto.
  - intros b w Hw. rewrite !search_by_dimensions_rows, Hw. unfold within.
    split; [|split; [|split]].
    + intros Hlt (_ & [H _] & _). destruct (H b eq_refl) as (w' & [= <-] & Hle).
      by apply Qlt_not_le in Hlt.
    + intros Heq. split; [done|]. repeat split; try (by intros ? [=]).
      intros ? [= <-]. exists w. split; [done|]. rewrite Heq. apply Qle_refl.
    + intros Hlt (_ & [_ H] & _). destruct (H b eq_refl) as (w' & [= <-] & Hle).
      by apply Qlt_not_le in Hlt.
    + intros Heq. split; [done|]. repeat split; try (by intros ? [=]).
      intros ? [= <-]. exists w. split; [done|]. rewrite Heq. apply Qle_refl.
  - intros b h Hh. rewrite !search_by_dimensions_rows, Hh. unfold within.
    split; [|split; [|split]].
    + intros Hlt (_ & _ & [H _]). destruct (H b eq_refl) as (h' & [= <-] & Hle).
      by apply Qlt_not_le in Hlt.
    + intros Heq. split; [done|]. repeat split; try (by intros ? [=]).
      intros ? [= <-]. exists h. split; [done|]. rewrite Heq. apply Qle_refl.
    + intros Hlt (_ & _ & [_ H]). destruct (H b eq_refl) as (h' & [= <-] & Hle).
      by apply Qlt_not_le in Hlt.
    + intros Heq. split; [done|]. repeat split; try (by intros ? [=]).
      intros ? [= <-]. exists h. split; [done|]. rewrite Heq. apply Qle_refl.
  - unfold search_by_dimensions. rewrite result_rows_query_all. cbn [filter_if].
    generalize (table db Artwork). clear.
    induction l; simpl; congruence.
Qed.

Lemma search_by_dimensions_inclusive_witness :
  let r : row := {[ "id" := VStr "aw-2"; "title" := VStr "Exact"; "artist" := VStr "B";
                    "width" := VNum 50; "height" := VNum 60 ]} in
  r ∈ table dimensions_fixture Artwork
  ∧ r ∈ result_rows (search_by_dimensions (Some 50%Q) None None None) dimensions_fixture.
Proof.
  intros r.
  assert (Hin : r ∈ table dimensions_fixture Artwork).
  { by_evaluation. }
  split; [exact Hin|].
  destruct (search_by_dimensions_inclusive dimensions_fixture None None None None r Hin)
    as (_ & Hw & _).
  apply (Hw 50%Q 50%Q); [by_evaluation|reflexivity].
Defined.

(** C10.  An artwork whose [width] is NULL is left out of the result as soon
    as [min_width] or [max_width] is supplied, whatever the bound, and an
    artwork whose [height] is NULL as soon as [min_height] or [max_height] is
    supplied; such a row can only be returned by a call without a bound on
    that dimension, and the call without any bound does return it. *)
Theorem search_by_dimensions_null_excluded
    (db : Database) (min_width max_width min_height max_height : option Q) (r : row) :
  r ∈ table db Artwork →
  let result := result_rows (search_by_dimensions min_width max_width min_height max_height) db in
  (col r "width" = VNull → is_Some min_width ∨ is_Some max_width → r ∉ result)
  ∧ (col r "height" = VNull → is_Some min_height ∨ is_Some max_height → r ∉ result)
  ∧ (col r "width" = VNull → r ∈ result → min_width = None ∧ max_width = None)
  ∧ (col r "height" = VNull → r ∈ result → min_height = None ∧ max_height = None)
  ∧ r ∈ result_rows (search_by_dimensions None None None None) db.
Proof.
  intros Hin result.
  assert (Hw : col r "width" = VNull → r ∈ result → min_width = None ∧ max_width = None).
  { intros Hnull Hr. apply search_by_dimensions_rows in Hr as (_ & [Hlo Hhi] & _).
    rewrite Hnull in Hlo, Hhi. split.
    - destruct min_width as [b|]; [|done]. by destruct (Hlo b eq_refl) as (? & [=] & _).
    - destruct max_width as [b|]; [|done]. by destruct (Hhi b eq_refl) as (? & [=] & _). }
  assert (Hh : col r "height" = VNull → r ∈ result → min_height = None ∧ max_height = None).
  { intros Hnull Hr. apply search_by_dimensions_rows in Hr as (_ & _ & [Hlo Hhi]).
    rewrite Hnull in Hlo, Hhi. split.
    - destruct min_height as [b|]; [|done]. by destruct (Hlo b eq_refl) as (? & [=] & _).
    - destruct max_height as [b|]; [|done]. by destruct (Hhi b eq_refl) as (? & [=] & _). }
  split; [|split; [|split; [|split]]]; [| |exact Hw|exact Hh|].
  - intros Hnull Hsome Hr. destruct (Hw Hnull Hr) as [-> ->].
    destruct Hsome as [[? [=]]|[? [=]]].
  - intros Hnull Hsome Hr. destruct (Hh Hnull Hr) as [-> ->].
    destruct Hsome as [[? [=]]|[? [=]]].
  - apply search_by_dimensions_rows. split; [exact Hin|].
    split; split; intros ? [=].
Qed.

Lemma search_by_dimensions_null_excluded_witness :
  let r : row := {[ "id" := VStr "aw-3"; "title" := VStr "Unmeasured"; "artist" := VStr "C";
                    "width" := VNull; "height" := VNull ]} in
  r ∈ table dimensions_fixture Artwork
  ∧ r ∉ result_rows (search_by_dimensions (Some 10%Q) None None None) dimensions_fixture.
Proof.
  intros r.
  assert (Hin : r ∈ table dimensions_fixture Artwork).
  { by_evaluation. }
  split; [exact Hin|].
  destruct (search_by_dimensions_null_excluded dimensions_fixture (Some 10%Q) None None None r Hin)
    as (Hw & _).
  apply Hw; [by_evaluation|]. left. by eexists.
Defined.

(** ** [get_db_info] *)

Lemma commit_fresh (db : Database) :
  commit (get_session db) = (Return tt, get_session db).
Proof. reflexivity. Qed.

Lemma length_append (a b : string) :
  String.length (a +:+ b) = (String.length a + String.length b)%nat.
Proof. induction a as [|c a IH]; simpl; [done|]. by rewrite IH. Qed.

Lemma length_interleave (new s : string) :
  String.length (interleave new s)
  = (String.length s * S (String.length new))%nat.
Proof.
  induction s as [|c s IH]; simpl; [done|].
  rewrite length_append, IH. lia.
Qed.

Lemma replace_empty_changes (s new : string) :
  new ≠ "" → replace s "" new ≠ s.
Proof.
  intros Hnew Heq. apply (f_equal String.length) in Heq.
  unfold replace in Heq. rewrite length_append, length_interleave in Heq.
  destruct new as [|c new]; [done|]. simpl in Heq. lia.
Qed.

(** C7 (the code departs from the claim).  For the default engine, whose URL
    [sqlite:///artwork_db.sqlite] has no password, [get_db_info] does not
    report the URL unchanged: the empty string is what gets replaced, so the
    mask is inserted before every character and at the end.  The same
    happens for every engine without a password whose version query
    succeeds: the reported URL differs from the URL of the engine. *)
Theorem get_db_info_url_without_password :
  reported_url default_engine
  = Some (VStr "***s***q***l***i***t***e***:***/***/***/***a***r***t***w***o***r***k***_***d***b***.***s***q***l***i***t***e***")
  ∧ reported_url default_engine ≠ Some (VStr (url default_engine))
  ∧ ∀ engine v,
      url_password engine = None ∨ url_password engine = Some "" →
      select_version engine = Return v →
      ∃ reported, reported_url engine = Some (VStr reported) ∧ reported ≠ url engine.
Proof.
  split; [by vm_compute|]. split; [by vm_compute|].
  intros engine v Hpw Hv.
  exists (replace (url engine) "" "***"). split.
  - unfold reported_url, get_db_info, with_get_db, get_db, try_finally, try_except,
      mbind, Py_bind, mret, Py_ret.
    rewrite Hv.
    assert (Hmask : match url_password engine with
                    | Some p => if String.eqb p "" then "" else p
                    | None => ""
                    end = "") by (destruct Hpw as [-> | ->]; reflexivity).
    rewrite Hmask.
    destruct (contains "sqlite" (url engine)); cbn [negb];
      rewrite commit_fresh; cbn; by rewrite lookup_insert_eq.
  - by apply replace_empty_changes.
Qed.

Lemma get_db_info_url_without_password_witness :
  ∃ reported, reported_url default_engine = Some (VStr reported)
              ∧ reported ≠ url default_engine.
Proof.
  apply (proj2 (proj2 get_db_info_url_without_password) default_engine "3.45.1").
  - left. reflexivity.
  - reflexivity.
Defined.

(** ** [get_db] *)

Lemma with_tables_same (db : Database) : with_tables (tables db) db = db.
Proof. by destruct db. Qed.

Lemma sql_insert_raises (m : Model) (r : row) (db : Database) (e : exn) :
  sql_insert m r db = Raise e → ∃ d, e = IntegrityError d.
Proof.
  unfold sql_insert. repeat case_match; intros [=]; subst; eauto.
Qed.

Lemma sql_update_raises (m : Model) (pk : value) (r : row) (db : Database) (e : exn) :
  sql_update m pk r db = Raise e → ∃ d, e = IntegrityError d.
Proof.
  unfold sql_update. repeat case_match; intros [=]; subst; eauto.
Qed.

Lemma flush_save_raises (o : Obj) (db db' : Database) (e : exn) :
  flush_save o db = (Raise e, db') → ∃ d, e = IntegrityError d.
Proof.
  unfold flush_save. repeat case_match; intros [=]; subst;
    eauto using sql_insert_raises, sql_update_raises.
Qed.

Lemma flush_delete_returns (o : Obj) (db : Database) :
  ∃ o' db', flush_delete o db = (Return o', db').
Proof. unfold flush_delete. case_match; eauto. Qed.

Lemma flush_each_raises (f : Obj → Py Database Obj) (os : list Obj) (db db' : Database) (e : exn) :
  (∀ o d d' e', f o d = (Raise e', d') → ∃ x, e' = IntegrityError x) →
  flush_each f os db = (Raise e, db') → ∃ d, e = IntegrityError d.
Proof.
  intros Hf. revert db. induction os as [|o os IH]; intros db; [by intros [=]|].
  cbn [flush_each]. unfold mbind, Py_bind.
  destruct (f o db) as [[o'|e'] d1] eqn:Ho.
  - destruct (flush_each f os d1) as [[os'|e''] d2] eqn:Hos.
    + by intros [=].
    + intros [= <- <-]. by eapply IH.
  - intros [= <- <-]. by eapply Hf.
Qed.

Lemma flush_raises (os : list Obj) (db db' : Database) (e : exn) :
  flush os db = (Raise e, db') → ∃ d, e = IntegrityError d.
Proof.
  unfold flush, mbind, Py_bind.
  destruct (flush_each flush_save os db) as [[os'|e'] d1] eqn:Hs.
  - intros H. eapply flush_each_raises; [|exact H].
    intros o d d' x Ho. destruct (flush_delete_returns o d) as (? & ? & Hd). congruence.
  - intros [= <- <-]. eapply flush_each_raises; [|exact Hs].
    intros o d d' x Ho. by eapply flush_save_raises.
Qed.

Lemma get_db_closes_last {S A} (session : SessionMethods S) (body : Py S A) (s : S) :
  ∃ s', snd (get_db session body s) = snd (session_close session s')
        ∧ ∀ e, fst (session_close session s') = Raise e →
               fst (get_db session body s) = Raise e.
Proof.
  unfold get_db, try_finally.
  destruct (try_except _ _ s) as [r s1]. exists s1.
  destruct (session_close session s1) as [[[]|e] s2]; simpl; [|naive_solver].
  split; [done|]. by intros e [=].
Qed.

Lemma get_db_run {S A} (session : SessionMethods S) (body : Py S A) (s s1 : S) (r : outcome A) :
  try_except (r ← body; session_commit session;; mret r)
             (λ e, session_rollback session;; raise e) s = (r, s1) →
  snd (get_db session body s) = snd (session_close session s1)
  ∧ (fst (session_close session s1) = Return tt → fst (get_db session body s) = r).
Proof.
  intros H. unfold get_db, try_finally. rewrite H.
  destruct (session_close session s1) as [[[]|e] s2]; simpl; [done|].
  split; [done|]. by intros [=].
Qed.

Lemma with_get_db_run {A} (body : ORM A) (db : Database) (s1 : Session) (r : outcome A) :
  try_except (r ← body; commit;; mret r) (λ e, rollback;; raise e) (get_session db) = (r, s1) →
  with_get_db body db = (r, bind s1).
Proof.
  intros H. unfold with_get_db, get_db, try_finally. cbn [orm_session session_commit
    session_rollback session_close]. rewrite H. reflexivity.
Qed.

Lemma staged_write_keeps_database (model : Model) (kwargs : row) (e : exn) (db : Database) :
  ∃ e' s1, staged_write_then_error model kwargs e (get_session db) = (Raise e', s1)
           ∧ bind s1 = db.
Proof.
  unfold staged_write_then_error, construct, mbind, Py_bind.
  destruct (forallb _ _); cbn; eauto.
Qed.

(** C2.  What [with get_db() as db: body] does, first for session methods
    that may fail in any way, then for the ORM session.
    - On every path the last thing done to the session is [close], and an
      error of [close] is what the caller sees.
    - If the body completes, [commit] is called on the session the body
      left; if it succeeds the scope ends normally with the body's result;
      if it fails, [rollback] is called and the error of [commit] is
      re-raised.
    - If the body raises an [Exception], [rollback] is called and the same
      error is re-raised; an error of [rollback] itself takes its place.
    - With the ORM session: after a body that completes, the database is
      the one produced by flushing the session's pending work, or, when a
      constraint is violated, the tables are as they were; after a body that
      raises, the database is what it was when the error was raised, and the
      caller gets that error.
    - A record staged with [add] before an error is in no table afterwards:
      the database is unchanged and [get_by_id] answers as before. *)
Theorem get_db_commit_rollback_close :
  (∀ (S A : Type) (session : SessionMethods S) (body : Py S A) (s : S),
     (∃ s', snd (get_db session body s) = snd (session_close session s')
            ∧ ∀ e, fst (session_close session s') = Raise e →
                   fst (get_db session body s) = Raise e)
     ∧ (∀ a s1, body s = (Return a, s1) →
          (∀ s2, session_commit session s1 = (Return tt, s2) →
                 snd (get_db session body s) = snd (session_close session s2)
                 ∧ (fst (session_close session s2) = Return tt →
                    fst (get_db session body s) = Return a))
          ∧ (∀ e s2 s3, session_commit session s1 = (Raise e, s2) →
                 isinstance_Exception e = true →
                 session_rollback session s2 = (Return tt, s3) →
                 snd (get_db session body s) = snd (session_close session s3)
                 ∧ (fst (session_close session s3) = Return tt →
                    fst (get_db session body s) = Raise e)))
     ∧ (∀ e s1, body s = (Raise e, s1) → isinstance_Exception e = true →
          (∀ s2, session_rollback session s1 = (Return tt, s2) →
                 snd (get_db session body s) = snd (session_close session s2)
                 ∧ (fst (session_close session s2) = Return tt →
                    fst (get_db session body s) = Raise e))
          ∧ (∀ e' s2, session_rollback session s1 = (Raise e', s2) →
                 snd (get_db session body s) = snd (session_close session s2)
                 ∧ (fst (session_close session s2) = Return tt →
                    fst (get_db session body s) = Raise e'))))
  ∧ (∀ (A : Type) (body : ORM A) (db : Database),
       (∀ a s1, body (get_session db) = (Return a, s1) →
          (∀ os db', flush (objects s1) (bind s1) = (Return os, db') →
                     with_get_db body db = (Return a, db'))
          ∧ (∀ e db', flush (objects s1) (bind s1) = (Raise e, db') →
                     with_get_db body db = (Raise e, with_tables (tables (bind s1)) db')))
       ∧ (∀ e s1, body (get_session db) = (Raise e, s1) →
                  with_get_db body db = (Raise e, bind s1)))
  ∧ (∀ (model : Model) (kwargs : row) (e : exn) (db : Database),
       ∃ e', with_get_db (staged_write_then_error model kwargs e) db = (Raise e', db)
             ∧ ∀ id, get_by_id model id
                       (get_session (snd (with_get_db (staged_write_then_error model kwargs e) db)))
                     = get_by_id model id (get_session db)).
Proof.
  split; [|split].
  - intros S A session body s. split; [apply get_db_closes_last|]. split.
    + intros a s1 Hbody. split.
      * intros s2 Hc. apply get_db_run.
        unfold try_except, mbind, Py_bind. by rewrite Hbody, Hc.
      * intros e s2 s3 Hc He Hr. apply get_db_run.
        unfold try_except, mbind, Py_bind. by rewrite Hbody, Hc, He, Hr.
    + intros e s1 Hbody He. split.
      * intros s2 Hr. apply get_db_run.
        unfold try_except, mbind, Py_bind. by rewrite Hbody, He, Hr.
      * intros e' s2 Hr. apply get_db_run.
        unfold try_except, mbind, Py_bind. by rewrite Hbody, He, Hr.
  - intros A body db. split.
    + intros a s1 Hbody. split.
      * intros os db' Hf.
        apply (with_get_db_run body db {| bind := db'; objects := expire db' <$> os |}).
        unfold try_except, mbind, Py_bind, commit. by rewrite Hbody, Hf.
      * intros e db' Hf. destruct (flush_raises _ _ _ _ Hf) as [d ->].
        apply (with_get_db_run body db
                 (snd (rollback {| bind := with_tables (tables (bind s1)) db';
                                   objects := objects s1 |}))).
        unfold try_except, mbind, Py_bind, commit. by rewrite Hbody, Hf.
    + intros e s1 Hbody.
      destruct (isinstance_Exception e) eqn:He.
      * apply (with_get_db_run body db (snd (rollback s1))).
        unfold try_except, mbind, Py_bind. by rewrite Hbody, He.
      * apply (with_get_db_run body db s1).
        unfold try_except, mbind, Py_bind. by rewrite Hbody, He.
  - intros model kwargs e db.
    destruct (staged_write_keeps_database model kwargs e db) as (e' & s1 & Hbody & Hdb).
    assert (Hrun : with_get_db (staged_write_then_error model kwargs e) db = (Raise e', db)).
    { rewrite <- Hdb at 2. destruct (isinstance_Exception e') eqn:He.
      - apply (with_get_db_run _ db (snd (rollback s1))).
        unfold try_except, mbind, Py_bind. by rewrite Hbody, He.
      - apply (with_get_db_run _ db s1).
        unfold try_except, mbind, Py_bind. by rewrite Hbody, He. }
    exists e'. split; [exact Hrun|]. intros id. by rewrite Hrun.
Qed.

Lemma get_db_commit_rollback_close_witness :
  let body := staged_write_then_error Artwork
                {[ "id" := VStr "aw-2"; "title" := VStr "Irises";
                   "artist" := VStr "Vincent van Gogh" ]}
                (Exception "interrupted") in
  (∃ s1, body (get_session one_artwork) = (Raise (Exception "interrupted"), s1))
  ∧ with_get_db body one_artwork = (Raise (Exception "interrupted"), one_artwork)
  ∧ fst (get_by_id Artwork "aw-2" (get_session (snd (with_get_db body one_artwork))))
    = Return None.
Proof.
  intros body.
  assert (Hbody : body (get_session one_artwork)
                  = (Raise (Exception "interrupted"),
                     snd (body (get_session one_artwork)))) by (by vm_compute).
  split; [eauto|].
  pose proof (proj2 (proj1 (proj2 get_db_commit_rollback_close) unit body one_artwork)
                _ _ Hbody) as Hrun.
  split.
  - rewrite Hrun. f_equal.
  - rewrite Hrun. by vm_compute.
Defined.

(** ** Rows, constraints and the schema *)

Lemma py_eq_sym (a b : value) : py_eq a b = py_eq b a.
Proof.
  destruct a, b; simpl; auto using String.eqb_sym, Z.eqb_sym.
  - apply eq_true_iff_eq. rewrite !Qeq_bool_iff. split; intros H; by symmetry.
  - by destruct b, b0.
Qed.

Lemma py_eq_trans (a b c : value) : py_eq a b = true → py_eq b c = true → py_eq a c = true.
Proof.
  destruct a, b, c; simpl; try congruence.
  - rewrite !String.eqb_eq. congruence.
  - rewrite !Qeq_bool_iff. intros H1 H2. by rewrite H1.
  - destruct b, b0, b1; simpl; congruence.
  - rewrite !Z.eqb_eq. congruence.
  - rewrite !String.eqb_eq. congruence.
Qed.

Lemma sql_eq_py_eq (a b : value) : sql_eq a b = true → py_eq a b = true.
Proof. by destruct a. Qed.

Lemma sql_eq_refl (v : value) : v ≠ VNull → sql_eq v v = true.
Proof. destruct v; [done|..]; intros _; apply py_eq_refl. Qed.

Lemma sql_eq_not_null (a b : value) : sql_eq a b = true → a ≠ VNull ∧ b ≠ VNull.
Proof. destruct a, b; simpl; try done. Qed.

Lemma sql_eq_sym (a b : value) : sql_eq a b = sql_eq b a.
Proof. unfold sql_eq. destruct a, b; try done; apply py_eq_sym. Qed.

Lemma sql_eq_trans (a b c : value) : sql_eq a b = true → sql_eq b c = true → sql_eq a c = true.
Proof.
  intros H1 H2. destruct (sql_eq_not_null _ _ H1) as [Ha _].
  apply sql_eq_py_eq in H1, H2. pose proof (py_eq_trans _ _ _ H1 H2).
  by destruct a.
Qed.


Lemma mapped_classes_well_formed (m : Model) : m ∈ mapped_classes → well_formed m.
Proof.
  unfold mapped_classes. rewrite !elem_of_cons, elem_of_nil.
  intros [->|[->|[->|[->|[]]]]]; (split; [set_solver|]);
    apply (bool_decide_unpack _); by vm_compute.
Qed.

Lemma col_insert_eq (r : row) (k : string) (v : value) : col (<[k := v]> r) k = v.
Proof. unfold col. by rewrite lookup_insert_eq. Qed.

Lemma col_insert_ne (r : row) (k k' : string) (v : value) :
  k ≠ k' → col (<[k := v]> r) k' = col r k'.
Proof. intros. unfold col. by rewrite lookup_insert_ne. Qed.

(** Writing one cell per column. *)
Lemma col_fold_columns_notin (g : Column → value) (cols : list Column) (r0 : row) (k : string) :
  k ∉ name <$> cols →
  col (fold_left (λ r c, <[name c := g c]> r) cols r0) k = col r0 k.
Proof.
  revert r0. induction cols as [|c cols IH]; intros r0 Hk; [done|].
  cbn [fold_left]. rewrite IH by set_solver. apply col_insert_ne. set_solver.
Qed.

Lemma col_fold_columns_in (g : Column → value) (cols : list Column) (r0 : row) (c : Column) :
  NoDup (name <$> cols) → c ∈ cols →
  col (fold_left (λ r c, <[name c := g c]> r) cols r0) (name c) = g c.
Proof.
  revert r0. induction cols as [|c' cols IH]; intros r0 Hnd Hc; [by apply elem_of_nil in Hc|].
  cbn [fold_left]. rewrite fmap_cons in Hnd. apply NoDup_cons in Hnd as [Hnotin Hnd].
  apply elem_of_cons in Hc as [->|Hc].
  - rewrite col_fold_columns_notin by done. apply col_insert_eq.
  - by apply IH.
Qed.

Lemma col_update_row (m : Model) (old a : row) (db : Database) (c : Column) :
  NoDup (column_names m) → c ∈ columns m →
  col (update_row m old a db) (name c)
  = if py_eq (col a (name c)) (col old (name c)) then
      match onupdate c with
      | Some func_now => VTime (clock db)
      | _ => col old (name c)
      end
    else col a (name c).
Proof.
  intros Hnd Hc. unfold update_row.
  exact (col_fold_columns_in
           (λ c, if py_eq (col a (name c)) (col old (name c)) then
                   match onupdate c with
                   | Some func_now => VTime (clock db)
                   | _ => col old (name c)
                   end
                 else col a (name c)) (columns m) ∅ c Hnd Hc).
Qed.



Lemma insert_row_tables (m : Model) (a : row) (db : Database) :
  tables (insert_row m a db).2 = tables db
  ∧ clock (insert_row m a db).2 = clock db
  ∧ foreign_keys (insert_row m a db).2 = foreign_keys db.
Proof.
  unfold insert_row. generalize (∅ : row) as r0. revert db.
  induction (columns m) as [|c cols IH]; intros db r0; [done|].
  cbn [fold_left]. destruct (fill_default c (col a (name c)) db) as [v db'] eqn:Hv.
  destruct (IH db' (<[name c := v]> r0)) as (-> & -> & ->).
  unfold fill_default, take_uuid in Hv.
  repeat case_match; simplify_eq; done.
Qed.

Lemma not_null_ok_id (m : Model) (r : row) :
  id_column ∈ columns m → not_null_ok m r = true → col r "id" ≠ VNull.
Proof.
  intros Hid Hok. unfold not_null_ok in Hok. rewrite forallb_forall in Hok.
  apply list_elem_of_In in Hid. specialize (Hok _ Hid). simpl in Hok.
  by destruct (col r "id").
Qed.

Lemma unique_ok_column (m : Model) (others : list row) (r : row) (c : Column) (o : row) :
  unique_ok m others r = true → c ∈ columns m → primary_key c || unique c = true →
  o ∈ others → sql_eq (col o (name c)) (col r (name c)) = false.
Proof.
  intros Hok Hc Hu Ho. unfold unique_ok in Hok. rewrite forallb_forall in Hok.
  apply list_elem_of_In in Hc. specialize (Hok _ Hc). rewrite Hu in Hok. simpl in Hok.
  rewrite forallb_forall in Hok. apply list_elem_of_In in Ho. specialize (Hok _ Ho).
  by apply negb_true_iff in Hok.
Qed.

Lemma table_set_table (m : Model) (rows : list row) (db : Database) :
  table (set_table m rows db) m = rows.
Proof. unfold table, set_table. cbn. by rewrite lookup_total_insert_eq. Qed.

Lemma table_set_table_ne (m m' : Model) (rows : list row) (db : Database) :
  tablename m ≠ tablename m' → table (set_table m rows db) m' = table db m'.
Proof. intros. unfold table, set_table. cbn. by rewrite lookup_total_insert_ne. Qed.

(** ** The unit of work on objects that are in step with their rows *)

Lemma changed_same (m : Model) (r : row) : changed m r r = false.
Proof.
  unfold changed. induction (columns m) as [|c cols IH]; [done|].
  cbn [existsb]. by rewrite py_eq_refl, IH.
Qed.

Lemma flush_save_loaded (m : Model) (r : row) (db : Database) :
  flush_save (loaded m r) db = (Return (loaded m r), db).
Proof. unfold flush_save. cbn [state loaded cls committed attrs]. by rewrite changed_same. Qed.

Lemma flush_delete_loaded (m : Model) (r : row) (db : Database) :
  flush_delete (loaded m r) db = (Return (loaded m r), db).
Proof. reflexivity. Qed.

Lemma flush_each_cons (f : Obj → Py Database Obj) (o : Obj) (os : list Obj) (db : Database) :
  flush_each f (o :: os) db
  = match f o db with
    | (Return o', db') =>
        match flush_each f os db' with
        | (Return os', db'') => (Return (o' :: os'), db'')
        | (Raise e, db'') => (Raise e, db'')
        end
    | (Raise e, db') => (Raise e, db')
    end.
Proof.
  cbn [flush_each]. unfold mbind, Py_bind. destruct (f o db) as [[o'|e] db']; [|done].
  by destruct (flush_each f os db') as [[os'|e] db''].
Qed.

Lemma flush_each_app (f : Obj → Py Database Obj) (os1 os2 : list Obj) (db : Database) :
  flush_each f (os1 ++ os2) db
  = match flush_each f os1 db with
    | (Return os1', db') =>
        match flush_each f os2 db' with
        | (Return os2', db'') => (Return (os1' ++ os2'), db'')
        | (Raise e, db'') => (Raise e, db'')
        end
    | (Raise e, db') => (Raise e, db')
    end.
Proof.
  revert db. induction os1 as [|o os1 IH]; intros db.
  - cbn. by destruct (flush_each f os2 db) as [[?|?] ?].
  - rewrite <- app_comm_cons, !flush_each_cons.
    destruct (f o db) as [[o'|e] db']; [|done]. rewrite IH.
    destruct (flush_each f os1 db') as [[os1'|e] db'']; [|done].
    by destruct (flush_each f os2 db'') as [[?|?] ?].
Qed.

Lemma flush_each_loaded (f : Obj → Py Database Obj) (os : list Obj) (db : Database) :
  Forall (λ o, ∃ m r, o = loaded m r) os →
  (∀ m r d, f (loaded m r) d = (Return (loaded m r), d)) →
  flush_each f os db = (Return os, db).
Proof.
  intros Hos Hf. induction Hos as [|o os (m & r & ->) _ IH]; [done|].
  by rewrite flush_each_cons, Hf, IH.
Qed.

Lemma expire_loaded (db : Database) (m : Model) (r : row) :
  find_row db m (col r "id") = Some r → expire db (loaded m r) = loaded m r.
Proof. intros H. unfold expire. cbn [state loaded cls identity]. by rewrite H. Qed.

Lemma refresh_loaded (s : Session) (i : nat) (m : Model) (r : row) :
  deref s i = Some (loaded m r) →
  find_row (bind s) m (col r "id") = Some r →
  refresh i s = (Return tt, s).
Proof.
  intros Hi Hr. unfold refresh. rewrite Hi. cbn [state loaded cls identity].
  rewrite Hr. unfold modify. f_equal. destruct s as [db os].
  unfold deref, ref in Hi. cbn [bind objects] in *.
  f_equal. apply list_eq. intros j. destruct (decide (i = j)) as [<-|Hne].
  - rewrite list_lookup_alter_eq.
    by rewrite Hi.
  - by rewrite list_lookup_alter_ne.
Qed.

(** An object of the session that mirrors its row of the database. *)
Lemma in_step_loaded (db : Database) (m : Model) (r : row) :
  find_row db m (col r "id") = Some r → in_step db (loaded m r).
Proof. intros H. by exists m, r. Qed.

Lemma flush_in_step (db : Database) (os : list Obj) :
  Forall (in_step db) os → flush os db = (Return os, db).
Proof.
  intros Hos. unfold flush, mbind, Py_bind.
  assert (Hl : Forall (λ o, ∃ m r, o = loaded m r) os).
  { eapply Forall_impl; [exact Hos|]. intros o (m & r & -> & _). eauto. }
  rewrite (flush_each_loaded flush_save os db Hl flush_save_loaded).
  by rewrite (flush_each_loaded flush_delete os db Hl flush_delete_loaded).
Qed.

Lemma expire_in_step (db : Database) (os : list Obj) :
  Forall (in_step db) os → expire db <$> os = os.
Proof.
  induction 1 as [|o os (m & r & -> & Hr) _ IH]; [done|].
  cbn [fmap list_fmap]. rewrite expire_loaded by done. f_equal. exact IH.
Qed.

(** Committing a session without pending work changes nothing. *)
Lemma commit_clean (s : Session) : clean s → commit s = (Return tt, s).
Proof.
  intros Hs. unfold commit. rewrite flush_in_step by done.
  rewrite expire_in_step by done. by destruct s.
Qed.

(** ** Running a sequence step by step *)

Lemma bind_return {St A B} (m : Py St A) (k : A → Py St B) (s s' : St) (a : A) :
  m s = (Return a, s') → (m ≫= k) s = k a s'.
Proof. intros H. unfold mbind, Py_bind. by rewrite H. Qed.


Lemma bind_assoc {St A B C} (m : Py St A) (f : A → Py St B) (g : B → Py St C) (s : St) :
  ((m ≫= f) ≫= g) s = (m ≫= λ a, f a ≫= g) s.
Proof. unfold mbind, Py_bind. by destruct (m s) as [[a|e] s']. Qed.

Lemma try_except_return {St A} (body : Py St A) (h : exn → Py St A) (s s' : St) (a : A) :
  body s = (Return a, s') → try_except body h s = (Return a, s').
Proof. intros H. unfold try_except. by rewrite H. Qed.


(** [commit] on a session that holds one object. *)
Lemma commit_one_dirty (m : Model) (old a : row) (db : Database) :
  commit {| bind := db; objects := [set_attrs a (loaded m old)] |}
  = if changed m old a then
      match sql_update m (col old "id") (update_row m old a db) db with
      | Return db2 =>
          (Return tt, {| bind := db2;
                         objects := [expire db2 (loaded m (update_row m old a db))] |})
      | Raise e =>
          (Raise e, {| bind := db; objects := [set_attrs a (loaded m old)] |})
      end
    else (Return tt, {| bind := db; objects := [expire db (set_attrs a (loaded m old))] |}).
Proof.
  unfold commit, flush. cbn [bind objects].
  unfold mbind at 1, Py_bind at 1. rewrite flush_each_cons.
  unfold flush_save. cbn [state set_attrs loaded cls committed attrs identity].
  destruct (changed m old a).
  - destruct (sql_update m (col old "id") (update_row m old a db) db) as [db2|e].
    + reflexivity.
    + by rewrite with_tables_same.
  - reflexivity.
Qed.


Lemma commit_one_deleted (m : Model) (r : row) (db : Database) :
  commit {| bind := db; objects := [set_state MarkedDeleted (loaded m r)] |}
  = (Return tt,
     {| bind := with_tables (orm_delete m (col r "id") (tables db)) db;
        objects := [set_state Detached (loaded m r)] |}).
Proof. reflexivity. Qed.

(** ** [update] on a session of its own *)

Lemma set_attrs_set_attrs (a b : row) (o : Obj) : set_attrs a (set_attrs b o) = set_attrs a o.
Proof. reflexivity. Qed.




Lemma find_row_head (db : Database) (m : Model) (id : string) (old : row) (rest : list row) :
  List.filter (λ r, sql_eq (col r "id") (VStr id)) (table db m) = old :: rest →
  col old "id" = VStr id ∧ find_row db m (col old "id") = Some old ∧ old ∈ table db m.
Proof.
  intros Hf.
  assert (Hin : In old (List.filter (λ r, sql_eq (col r "id") (VStr id)) (table db m)))
    by (rewrite Hf; by left).
  apply filter_In in Hin as [Hin Hid]. apply sql_eq_VStr in Hid.
  split; [done|]. split; [|by apply list_elem_of_In].
  unfold find_row. by rewrite Hid, Hf.
Qed.

Lemma find_row_sql_update (m : Model) (pk : value) (r : row) (db db2 : Database) (o : row) :
  id_column ∈ columns m →
  sql_update m pk r db = Return db2 →
  o ∈ table db m → sql_eq (col o "id") pk = true →
  find_row db2 m (col r "id") = Some r.
Proof.
  intros Hid Hup Ho Hopk. unfold sql_update in Hup.
  destruct (not_null_ok m r) eqn:Hnn; [|done].
  destruct (unique_ok m _ r) eqn:Hu; [|done].
  cbn [negb] in Hup. repeat case_match; try done. injection Hup as <-.
  unfold find_row. rewrite table_set_table.
  pose proof (not_null_ok_id m r Hid Hnn) as Hrid.
  assert (Hothers : ∀ x, x ∈ table db m → sql_eq (col x "id") pk = false →
                         sql_eq (col x "id") (col r "id") = false).
  { intros x Hx Hxpk.
    apply (unique_ok_column m _ r id_column x Hu Hid eq_refl).
    apply list_elem_of_In, filter_In. split; [by apply list_elem_of_In|].
    by rewrite Hxpk. }
  revert Ho Hothers. generalize (table db m) as rows.
  induction rows as [|x rows IH]; intros Ho Hothers; [by apply elem_of_nil in Ho|].
  cbn [List.map List.filter].
  destruct (sql_eq (col x "id") pk) eqn:Hx.
  - by rewrite sql_eq_refl.
  - rewrite (Hothers x) by (done || set_solver).
    apply IH; [|intros; apply Hothers; set_solver].
    apply elem_of_cons in Ho as [->|Ho]; [congruence|done].
Qed.

Lemma sql_update_tables_ne (m m' : Model) (pk : value) (r : row) (db db2 : Database) :
  sql_update m pk r db = Return db2 → tablename m ≠ tablename m' →
  table db2 m' = table db m'.
Proof.
  unfold sql_update. repeat case_match; try done. intros [= <-] Hne.
  by apply table_set_table_ne.
Qed.



Lemma get_by_id_found (m : Model) (db : Database) (id : string) (old : row) (rest : list row) :
  List.filter (λ r, sql_eq (col r "id") (VStr id)) (table db m) = old :: rest →
  get_by_id m id (get_session db)
  = (Return (Some 0%nat), {| bind := db; objects := [loaded m old] |}).
Proof.
  intros Hf. unfold get_by_id, query_first, select. cbn [bind get_session]. by rewrite Hf.
Qed.

Lemma get_by_id_not_found (m : Model) (db : Database) (id : string) :
  List.filter (λ r, sql_eq (col r "id") (VStr id)) (table db m) = [] →
  get_by_id m id (get_session db) = (Return None, get_session db).
Proof.
  intros Hf. unfold get_by_id, query_first, select. cbn [bind get_session]. by rewrite Hf.
Qed.


(** ** [update]: which fields change *)



Lemma stored_filter (db : Database) (m : Model) (id : string) (r : row) :
  stored db m id r →
  ∃ rest, List.filter (λ x, sql_eq (col x "id") (VStr id)) (table db m) = r :: rest.
Proof.
  unfold stored, find_row.
  destruct (List.filter _ (table db m)) as [|x rest]; [done|].
  intros [= ->]. eauto.
Qed.

Lemma not_stored_filter (db : Database) (m : Model) (id : string) :
  find_row db m (VStr id) = None →
  List.filter (λ x, sql_eq (col x "id") (VStr id)) (table db m) = [].
Proof. unfold find_row. by destruct (List.filter _ (table db m)). Qed.

(** Only [updated_at] has an [onupdate] rule. *)
Lemma mapped_classes_onupdate (m : Model) (c : Column) :
  m ∈ mapped_classes → c ∈ columns m → name c ≠ "updated_at" → onupdate c = None.
Proof.
  intros Hm Hc Hne.
  assert (H : forallb (λ c, bool_decide (name c = "updated_at")
                            || bool_decide (onupdate c = None)) (columns m) = true).
  { revert Hm. unfold mapped_classes. rewrite !elem_of_cons, elem_of_nil.
    intros [->|[->|[->|[->|[]]]]]; by vm_compute. }
  rewrite forallb_forall in H. apply list_elem_of_In in Hc. specialize (H _ Hc).
  apply orb_true_iff in H as [H|H]; apply bool_decide_eq_true in H; done.
Qed.

Lemma col_updated_row (m : Model) (old a : row) (db : Database) (k : string) :
  m ∈ mapped_classes → k ∈ column_names m → k ≠ "updated_at" →
  col (update_row m old a db) k
  = if py_eq (col a k) (col old k) then col old k else col a k.
Proof.
  intros Hm Hk Hne. destruct (mapped_classes_well_formed m Hm) as [_ Hnd].
  apply list_elem_of_fmap in Hk as (c & -> & Hc).
  rewrite (col_update_row m old a db c Hnd Hc).
  by rewrite (mapped_classes_onupdate m c Hm Hc Hne).
Qed.




(** ** [update] and the parameters of its signature *)









(** ** [create] *)

Lemma find_row_app (db : Database) (m : Model) (rows : list row) (r : row) (pk : value) :
  table db m = rows ++ [r] →
  find_row db m pk
  = match head (List.filter (λ x, sql_eq (col x "id") pk) rows) with
    | Some x => Some x
    | None => if sql_eq (col r "id") pk then Some r else None
    end.
Proof.
  intros Ht. unfold find_row. rewrite Ht, List.filter_app.
  destruct (List.filter _ rows); [|done]. cbn. by destruct (sql_eq (col r "id") pk).
Qed.

Lemma List_filter_none {A} (p : A → bool) (l : list A) :
  (∀ x, x ∈ l → p x = false) → List.filter p l = [].
Proof.
  induction l as [|x l IH]; intros H; [done|]. cbn.
  rewrite (H x) by set_solver. apply IH. intros; apply H; set_solver.
Qed.

Lemma sql_insert_table (m : Model) (r : row) (db db2 : Database) :
  sql_insert m r db = Return db2 →
  db2 = set_table m (table db m ++ [r]) db
  ∧ not_null_ok m r = true ∧ unique_ok m (table db m) r = true
  ∧ foreign_keys_ok db m r = true.
Proof.
  unfold sql_insert.
  destruct (not_null_ok m r), (unique_ok m (table db m) r), (foreign_keys_ok db m r);
    cbn; intros [=]; done.
Qed.

(** A row that was just inserted is the one found under its primary key. *)
Lemma find_row_sql_insert (m : Model) (r : row) (db db2 : Database) :
  id_column ∈ columns m → sql_insert m r db = Return db2 →
  find_row db2 m (col r "id") = Some r.
Proof.
  intros Hid Hins. destruct (sql_insert_table m r db db2 Hins) as (-> & Hnn & Hu & _).
  rewrite (find_row_app _ m (table db m) r) by apply table_set_table.
  assert (Hnone : List.filter (λ x, sql_eq (col x "id") (col r "id")) (table db m) = []).
  { apply List_filter_none. intros x Hx.
    by apply (unique_ok_column m _ r id_column x Hu Hid eq_refl). }
  rewrite Hnone. cbn. rewrite sql_eq_refl; [done|]. by eapply not_null_ok_id.
Qed.

(** Rows that were found before an INSERT are found after it. *)
Lemma find_row_after_insert (m m' : Model) (r r' : row) (db db2 : Database) (pk : value) :
  sql_insert m r db = Return db2 →
  find_row db m' pk = Some r' → find_row db2 m' pk = Some r'.
Proof.
  intros Hins Hfind. destruct (sql_insert_table m r db db2 Hins) as (-> & _).
  destruct (decide (tablename m = tablename m')) as [Heq|Hne].
  - unfold find_row, table, set_table in *. cbn [tables with_tables].
    rewrite Heq, lookup_total_insert_eq, List.filter_app.
    by destruct (List.filter _ (tables db !!! tablename m')).
  - unfold find_row in *. by rewrite table_set_table_ne.
Qed.

Lemma find_row_insert_row (m m' : Model) (a : row) (db : Database) (pk : value) :
  find_row (insert_row m a db).2 m' pk = find_row db m' pk.
Proof. unfold find_row, table. by rewrite (proj1 (insert_row_tables m a db)). Qed.

Lemma in_step_after_insert (m : Model) (a : row) (db db2 : Database) (o : Obj) :
  sql_insert m (insert_row m a db).1 (insert_row m a db).2 = Return db2 →
  in_step db o → in_step db2 o.
Proof.
  intros Hins (m' & r' & -> & Hfind). exists m', r'. split; [done|].
  eapply find_row_after_insert; [exact Hins|]. by rewrite find_row_insert_row.
Qed.

Lemma construct_columns (m : Model) (kwargs : row) (s : Session) :
  (∀ k, is_Some (kwargs !! k) → is_column m k = true) →
  construct m kwargs s
  = alloc {| cls := m; attrs := kwargs; committed := ∅; identity := VNull;
             state := Transient |} s.
Proof.
  intros Hk. unfold construct.
  replace (forallb (hasattr m) (map_to_list kwargs).*1) with true; [done|].
  symmetry. apply forallb_forall. intros k Hin. apply list_elem_of_In in Hin.
  apply list_elem_of_fmap in Hin as ([k' v] & -> & Hin).
  apply elem_of_map_to_list in Hin. apply Hk. by exists v.
Qed.

Lemma construct_invalid (m : Model) (kwargs : row) (s : Session) (k : string) :
  is_Some (kwargs !! k) → is_column m k = false →
  construct m kwargs s = (Raise (TypeError "invalid keyword argument"), s).
Proof.
  intros [v Hk] Hcol. unfold construct.
  replace (forallb (hasattr m) (map_to_list kwargs).*1) with false; [done|].
  symmetry. apply not_true_iff_false. intros H. rewrite forallb_forall in H.
  specialize (H k). unfold hasattr in H. rewrite Hcol in H. apply diff_false_true, H.
  apply list_elem_of_In, list_elem_of_fmap. exists (k, v). split; [done|].
  by apply elem_of_map_to_list.
Qed.

(** [create] in a session without pending work, when the INSERT passes the
    constraints: the new object is appended to the session, which is again
    without pending work. *)
Lemma create_clean (m : Model) (kwargs : row) (s : Session) (db2 : Database) :
  clean s → id_column ∈ columns m →
  (∀ k, is_Some (kwargs !! k) → is_column m k = true) →
  sql_insert m (insert_row m kwargs (bind s)).1 (insert_row m kwargs (bind s)).2 = Return db2 →
  let s' := {| bind := db2;
               objects := objects s ++ [loaded m (insert_row m kwargs (bind s)).1] |} in
  create m kwargs s = (Return (length (objects s)), s') ∧ clean s'.
Proof.
  intros Hs Hid Hk Hins s'.
  set (r := (insert_row m kwargs (bind s)).1) in *.
  set (db1 := (insert_row m kwargs (bind s)).2) in *.
  assert (Hr : find_row db2 m (col r "id") = Some r) by (by eapply find_row_sql_insert).
  assert (Hclean : clean s').
  { unfold clean, s'. cbn [bind objects]. apply Forall_app. split.
    - eapply Forall_impl; [exact Hs|]. intros o.
      exact (in_step_after_insert m kwargs (bind s) db2 o Hins).
    - constructor; [|done]. by apply in_step_loaded. }
  split; [|exact Hclean].
  set (pending := {| cls := m; attrs := kwargs; committed := ∅; identity := VNull;
                     state := Pending |}).
  assert (Hcommit : commit {| bind := bind s; objects := objects s ++ [pending] |}
                    = (Return tt, s')).
  { unfold commit, flush. cbn [bind objects].
    unfold mbind at 1, Py_bind at 1. rewrite flush_each_app.
    rewrite (flush_each_loaded flush_save (objects s) (bind s)); [|..|apply flush_save_loaded].
    2:{ eapply Forall_impl; [exact Hs|]. intros o (m' & r' & -> & _). eauto. }
    rewrite flush_each_cons. unfold flush_save at 1. cbn [state pending cls attrs].
    rewrite (surjective_pairing (insert_row m kwargs (bind s))). fold r db1. rewrite Hins.
    cbn [flush_each mret Py_ret].
    rewrite (flush_each_loaded flush_delete (objects s ++ [loaded m r]) db2);
      [|..|apply flush_delete_loaded].
    2:{ eapply Forall_impl; [exact Hclean|]. intros o (m' & r' & -> & _). eauto. }
    by rewrite (expire_in_step db2 (objects s ++ [loaded m r]) Hclean). }
  unfold create. apply try_except_return.
  rewrite (bind_return _ _ s {| bind := bind s;
                                objects := objects s ++ [set_state Transient pending] |}
             (length (objects s))) by (by rewrite construct_columns).
  rewrite (bind_return _ _ _ {| bind := bind s; objects := objects s ++ [pending] |} tt).
  2:{ unfold add, modify. cbn [bind objects]. do 2 f_equal.
      rewrite <- (Nat.add_0_r (length (objects s))).
      by rewrite (alter_app_r _ (objects s) _ 0). }
  rewrite (bind_return _ _ _ _ _ Hcommit).
  rewrite (bind_return _ _ _ s' tt); [done|].
  apply (refresh_loaded s' _ m r); [|done].
  unfold deref, s'. cbn [objects]. rewrite lookup_app_r by done.
  by rewrite Nat.sub_diag.
Qed.





(** ** [delete] and the cascade *)

Lemma List_filter_filter {A} (p q : A → bool) (l : list A) :
  List.filter p (List.filter q l) = List.filter (λ x, q x && p x) l.
Proof.
  induction l as [|x l IH]; [done|]. cbn. destruct (q x); cbn; [|done].
  destruct (p x); by rewrite IH.
Qed.

Lemma List_filter_all {A} (l : list A) : List.filter (λ _, true) l = l.
Proof. induction l; cbn; congruence. Qed.

Lemma without_nil (rows : list row) : without rows [] = rows.
Proof. apply List_filter_all. Qed.

Lemma without_without (rows : list row) (xs ys : list value) :
  without (without rows xs) ys = without rows (xs ++ ys).
Proof.
  unfold without. rewrite List_filter_filter. apply List.filter_ext.
  intros r. by rewrite forallb_app.
Qed.

Lemma without_one (rows : list row) (pk : value) :
  List.filter (λ o, negb (sql_eq (col o "id") pk)) rows = without rows [pk].
Proof. unfold without. apply List.filter_ext. intros r. cbn. by rewrite andb_true_r. Qed.

Lemma shrinks_refl (t : gmap string (list row)) : shrinks t t.
Proof. intros tn. exists []. by rewrite without_nil. Qed.

Lemma shrinks_trans (t1 t2 t3 : gmap string (list row)) :
  shrinks t1 t2 → shrinks t2 t3 → shrinks t1 t3.
Proof.
  intros H12 H23 tn. destruct (H12 tn) as [xs Hxs], (H23 tn) as [ys Hys].
  exists (xs ++ ys). by rewrite Hys, Hxs, without_without.
Qed.

Lemma shrinks_delete (t : gmap string (list row)) (tn : string) (pk : value) :
  shrinks t (<[tn := List.filter (λ o, negb (sql_eq (col o "id") pk)) (t !!! tn)]> t).
Proof.
  intros tn'. destruct (decide (tn = tn')) as [<-|Hne].
  - exists [pk]. by rewrite lookup_total_insert_eq, without_one.
  - exists []. by rewrite lookup_total_insert_ne, without_nil.
Qed.

Lemma shrinks_fold {A} (step : gmap string (list row) → A → gmap string (list row))
    (l : list A) (t : gmap string (list row)) :
  (∀ acc c, shrinks acc (step acc c)) → shrinks t (fold_left step l t).
Proof.
  intros Hstep. revert t. induction l as [|c l IH]; intros t; [apply shrinks_refl|].
  cbn. eapply shrinks_trans; [apply Hstep|apply IH].
Qed.

Lemma shrinks_subset (t t' : gmap string (list row)) (tn : string) (r : row) :
  shrinks t t' → r ∈ t' !!! tn → r ∈ t !!! tn.
Proof.
  intros Hs Hr. destruct (Hs tn) as [xs Hxs]. rewrite Hxs in Hr.
  by apply elem_of_List_filter in Hr as [? _].
Qed.

(** Once a row is gone, no row with its primary key is left. *)
Lemma shrinks_removed (t t' : gmap string (list row)) (tn : string) (r r2 : row) :
  shrinks t t' → r ∈ t !!! tn → r ∉ t' !!! tn → r2 ∈ t' !!! tn →
  sql_eq (col r2 "id") (col r "id") = false.
Proof.
  intros Hs Hr Hnot Hr2. destruct (Hs tn) as [xs Hxs]. rewrite Hxs in Hnot, Hr2.
  apply elem_of_List_filter in Hr2 as [_ Hr2].
  destruct (forallb (λ x, negb (sql_eq (col r "id") x)) xs) eqn:Hall.
  { exfalso. apply Hnot. by apply elem_of_List_filter. }
  apply not_true_iff_false in Hall.
  destruct (sql_eq (col r2 "id") (col r "id")) eqn:E; [|done].
  exfalso. apply Hall. apply forallb_forall. intros x Hx.
  rewrite forallb_forall in Hr2. specialize (Hr2 x Hx).
  apply negb_true_iff. apply negb_true_iff in Hr2.
  destruct (sql_eq (col r "id") x) eqn:E2; [|done].
  by rewrite (sql_eq_trans _ _ _ E E2) in Hr2.
Qed.

Lemma fold_left_establishes {A T} (step : T → A → T) (Q : T → Prop) (l : list A) (t : T) (c : A) :
  c ∈ l → (∀ acc, Q (step acc c)) → (∀ acc x, Q acc → Q (step acc x)) →
  Q (fold_left step l t).
Proof.
  intros Hc Hest Hpres. revert t. induction l as [|x l IH]; intros t.
  - by apply elem_of_nil in Hc.
  - cbn. apply elem_of_cons in Hc as [->|Hc]; [|by apply IH].
    generalize (step t x) (Hest t). clear -Hpres.
    induction l as [|y l IH]; intros acc Hacc; [done|]. cbn. apply IH, Hpres, Hacc.
Qed.

Lemma orm_delete_appearance (pk : value) (t : gmap string (list row)) :
  orm_delete ArtworkAppearance pk t
  = <["artwork_appearances" :=
        List.filter (λ o, negb (sql_eq (col o "id") pk)) (t !!! "artwork_appearances")]> t.
Proof. reflexivity. Qed.

Lemma orm_delete_photo (pk : value) (t : gmap string (list row)) :
  orm_delete InstallationPhoto pk t
  = let t' := fold_left (λ acc c, orm_delete ArtworkAppearance (col c "id") acc)
                (List.filter (λ c, sql_eq (col c "photo_id") pk) (t !!! "artwork_appearances"))
                t in
    <["installation_photos" :=
        List.filter (λ o, negb (sql_eq (col o "id") pk)) (t' !!! "installation_photos")]> t'.
Proof. reflexivity. Qed.

Lemma orm_delete_exhibition (pk : value) (t : gmap string (list row)) :
  orm_delete Exhibition pk t
  = let t' := fold_left (λ acc c, orm_delete InstallationPhoto (col c "id") acc)
                (List.filter (λ c, sql_eq (col c "exhibition_id") pk) (t !!! "installation_photos"))
                t in
    <["exhibitions" :=
        List.filter (λ o, negb (sql_eq (col o "id") pk)) (t' !!! "exhibitions")]> t'.
Proof. reflexivity. Qed.

Lemma shrinks_orm_delete_appearance (pk : value) (t : gmap string (list row)) :
  shrinks t (orm_delete ArtworkAppearance pk t).
Proof. rewrite orm_delete_appearance. apply shrinks_delete. Qed.

Lemma shrinks_orm_delete_photo (pk : value) (t : gmap string (list row)) :
  shrinks t (orm_delete InstallationPhoto pk t).
Proof.
  rewrite orm_delete_photo. cbv zeta.
  eapply shrinks_trans; [|apply shrinks_delete].
  apply shrinks_fold. intros acc c. apply shrinks_orm_delete_appearance.
Qed.

Lemma shrinks_orm_delete_exhibition (pk : value) (t : gmap string (list row)) :
  shrinks t (orm_delete Exhibition pk t).
Proof.
  rewrite orm_delete_exhibition. cbv zeta.
  eapply shrinks_trans; [|apply shrinks_delete].
  apply shrinks_fold. intros acc c. apply shrinks_orm_delete_photo.
Qed.

Lemma not_in_filter_self (rows : list row) (r : row) :
  col r "id" ≠ VNull →
  r ∉ List.filter (λ o, negb (sql_eq (col o "id") (col r "id"))) rows.
Proof.
  intros Hnn Hin. apply elem_of_List_filter in Hin as [_ Hin].
  by rewrite sql_eq_refl in Hin.
Qed.

(** Deleting a photo removes the photo and the appearances attached to it. *)
Lemma orm_delete_photo_removes_photo (p : row) (t : gmap string (list row)) :
  col p "id" ≠ VNull →
  p ∉ orm_delete InstallationPhoto (col p "id") t !!! "installation_photos".
Proof.
  intros Hnn. rewrite orm_delete_photo. cbv zeta. rewrite lookup_total_insert_eq.
  by apply not_in_filter_self.
Qed.

Lemma orm_delete_photo_removes_appearance (p a : row) (t : gmap string (list row)) :
  sql_eq (col a "photo_id") (col p "id") = true → col a "id" ≠ VNull →
  a ∉ orm_delete InstallationPhoto (col p "id") t !!! "artwork_appearances".
Proof.
  intros Hap Hnn. rewrite orm_delete_photo. cbv zeta.
  rewrite lookup_total_insert_ne by done.
  set (children := List.filter _ (t !!! "artwork_appearances")).
  destruct (decide (a ∈ t !!! "artwork_appearances")) as [Hin|Hout].
  - apply (fold_left_establishes
             (λ acc c, orm_delete ArtworkAppearance (col c "id") acc)
             (λ acc, a ∉ acc !!! "artwork_appearances") children t a).
    + unfold children. by apply elem_of_List_filter.
    + intros acc. rewrite orm_delete_appearance, lookup_total_insert_eq.
      by apply not_in_filter_self.
    + intros acc x Hacc Hin'. apply Hacc.
      eapply shrinks_subset; [apply shrinks_orm_delete_appearance|exact Hin'].
  - intros Hin. apply Hout. eapply shrinks_subset; [|exact Hin].
    apply shrinks_fold. intros acc c. apply shrinks_orm_delete_appearance.
Qed.

(** What [delete] does on a session of its own. *)
Lemma delete_not_found (m : Model) (db : Database) (id : string) :
  find_row db m (VStr id) = None →
  delete m id (get_session db) = (Return false, get_session db).
Proof.
  intros Hnone. unfold delete. apply try_except_return.
  by rewrite (bind_return _ _ _ _ _
                (get_by_id_not_found m db id (not_stored_filter db m id Hnone))).
Qed.

Lemma delete_found (m : Model) (db : Database) (id : string) (old : row) :
  stored db m id old →
  delete m id (get_session db)
  = (Return true,
     {| bind := with_tables (orm_delete m (VStr id) (tables db)) db;
        objects := [set_state Detached (loaded m old)] |}).
Proof.
  intros Hold. destruct (stored_filter db m id old Hold) as [rest Hf].
  destruct (find_row_head db m id old rest Hf) as (Hoid & _ & _).
  unfold delete. apply try_except_return.
  rewrite (bind_return _ _ _ _ _ (get_by_id_found m db id old rest Hf)).
  rewrite (bind_return _ _ _ {| bind := db;
                                objects := [set_state MarkedDeleted (loaded m old)] |} tt)
    by done.
  rewrite (bind_return _ _ _ _ _ (commit_one_deleted m old db)).
  by rewrite Hoid.
Qed.

Lemma get_by_id_absent (m : Model) (db : Database) (id : string) :
  (∀ r, r ∈ table db m → sql_eq (col r "id") (VStr id) = false) →
  fst (get_by_id m id (get_session db)) = Return None.
Proof.
  intros H. rewrite get_by_id_not_found; [done|]. by apply List_filter_none.
Qed.

Lemma fold_left_lookup_total {A} (step : gmap string (list row) → A → gmap string (list row))
    (l : list A) (t : gmap string (list row)) (tn : string) :
  (∀ acc c, step acc c !!! tn = acc !!! tn) → fold_left step l t !!! tn = t !!! tn.
Proof.
  intros Hstep. revert t. induction l as [|c l IH]; intros t; [done|].
  cbn. by rewrite IH, Hstep.
Qed.

Lemma orm_delete_photo_other (pk : value) (t : gmap string (list row)) (tn : string) :
  tn ≠ "installation_photos" → tn ≠ "artwork_appearances" →
  orm_delete InstallationPhoto pk t !!! tn = t !!! tn.
Proof.
  intros H1 H2. rewrite orm_delete_photo. cbv zeta.
  rewrite lookup_total_insert_ne by done.
  apply fold_left_lookup_total. intros acc c.
  rewrite orm_delete_appearance. by rewrite lookup_total_insert_ne.
Qed.

Lemma orm_delete_exhibition_tables (pk : value) (t : gmap string (list row)) :
  let t' := orm_delete Exhibition pk t in
  t' !!! "exhibitions"
  = List.filter (λ o, negb (sql_eq (col o "id") pk)) (t !!! "exhibitions")
  ∧ t' !!! "artworks" = t !!! "artworks"
  ∧ ∀ tn, tn ≠ "exhibitions" →
      t' !!! tn
      = fold_left (λ acc c, orm_delete InstallationPhoto (col c "id") acc)
          (List.filter (λ c, sql_eq (col c "exhibition_id") pk) (t !!! "installation_photos"))
          t !!! tn.
Proof.
  cbv zeta. rewrite orm_delete_exhibition. cbv zeta. split; [|split].
  - rewrite lookup_total_insert_eq. f_equal.
    apply fold_left_lookup_total. intros acc c. by apply orm_delete_photo_other.
  - rewrite lookup_total_insert_ne by done.
    apply fold_left_lookup_total. intros acc c. by apply orm_delete_photo_other.
  - intros tn Hne. by rewrite lookup_total_insert_ne.
Qed.

(** C5.  For an exhibition stored under [id]: [delete] returns [True];
    afterwards [get_by_id] finds no exhibition under [id], no photo under
    the identifier of any photo of the exhibition, and no appearance under
    the identifier of any appearance attached to one of those photos; the
    other exhibitions and the artworks are untouched.  When no exhibition
    is stored under [id], [delete] returns [False] and changes nothing. *)
Theorem delete_exhibition_cascades (db : Database) (id : string) :
  (∀ e, stored db Exhibition id e →
     ∃ s', delete Exhibition id (get_session db) = (Return true, s')
       ∧ fst (get_by_id Exhibition id (get_session (bind s'))) = Return None
       ∧ (∀ p pid, p ∈ photos_of db id → col p "id" = VStr pid →
            fst (get_by_id InstallationPhoto pid (get_session (bind s'))) = Return None)
       ∧ (∀ a aid, a ∈ appearances_of db id → col a "id" = VStr aid →
            fst (get_by_id ArtworkAppearance aid (get_session (bind s'))) = Return None)
       ∧ table (bind s') Exhibition
         = List.filter (λ o, negb (sql_eq (col o "id") (VStr id))) (table db Exhibition)
       ∧ table (bind s') Artwork = table db Artwork)
  ∧ (find_row db Exhibition (VStr id) = None →
     delete Exhibition id (get_session db) = (Return false, get_session db)).
Proof.
  split; [|apply delete_not_found].
  intros e He. eexists. split; [by apply (delete_found Exhibition db id e)|].
  cbn [bind]. set (t := tables db). set (t' := orm_delete Exhibition (VStr id) t).
  destruct (orm_delete_exhibition_tables (VStr id) t) as (Hex & Haw & Hother).
  fold t' in Hex, Haw, Hother.
  pose proof (shrinks_orm_delete_exhibition (VStr id) t) as Hshr. fold t' in Hshr.
  set (photos := List.filter (λ c, sql_eq (col c "exhibition_id") (VStr id))
                             (t !!! "installation_photos")) in *.
  set (step := λ acc c, orm_delete InstallationPhoto (col c "id") acc) in *.
  assert (Hpres : ∀ tn (r : row) acc x, r ∉ acc !!! tn → r ∉ step acc x !!! tn).
  { intros tn r acc x Hacc Hin. apply Hacc.
    eapply shrinks_subset; [apply shrinks_orm_delete_photo|exact Hin]. }
  split; [|split; [|split; [|split]]].
  - apply get_by_id_absent. intros r Hr.
    change (table (with_tables t' db) Exhibition) with (t' !!! "exhibitions") in Hr.
    rewrite Hex in Hr. apply elem_of_List_filter in Hr as [_ Hr].
    by apply negb_true_iff in Hr.
  - intros p pid Hp Hpid. apply get_by_id_absent. intros r Hr.
    change (table (with_tables t' db) InstallationPhoto)
      with (t' !!! "installation_photos") in Hr.
    rewrite <- Hpid.
    apply (shrinks_removed t t' "installation_photos" p r Hshr); [| |exact Hr].
    + unfold photos_of in Hp. by apply elem_of_List_filter in Hp as [? _].
    + rewrite Hother by done.
      apply (fold_left_establishes step (λ acc, p ∉ acc !!! "installation_photos")
               photos t p); [exact Hp| |by apply Hpres].
      intros acc. apply orm_delete_photo_removes_photo. by rewrite Hpid.
  - intros a aid Ha Haid. apply get_by_id_absent. intros r Hr.
    change (table (with_tables t' db) ArtworkAppearance)
      with (t' !!! "artwork_appearances") in Hr.
    rewrite <- Haid.
    unfold appearances_of in Ha. apply elem_of_List_filter in Ha as [Ha Hex'].
    apply existsb_exists in Hex' as (p & Hp & Hap). apply list_elem_of_In in Hp.
    apply (shrinks_removed t t' "artwork_appearances" a r Hshr); [exact Ha| |exact Hr].
    rewrite Hother by done.
    apply (fold_left_establishes step (λ acc, a ∉ acc !!! "artwork_appearances")
             photos t p); [exact Hp| |by apply Hpres].
    intros acc. apply orm_delete_photo_removes_appearance; [exact Hap|by rewrite Haid].
  - exact Hex.
  - exact Haw.
Qed.

Lemma delete_exhibition_cascades_witness :
  stored gallery Exhibition "ex-1"
    {[ "id" := VStr "ex-1"; "name" := VStr "Colors of the Night"; "museum" := VStr "MoMA" ]}
  ∧ ∃ s', delete Exhibition "ex-1" (get_session gallery) = (Return true, s')
      ∧ fst (get_by_id Exhibition "ex-1" (get_session (bind s'))) = Return None
      ∧ (∀ p pid, p ∈ photos_of gallery "ex-1" → col p "id" = VStr pid →
           fst (get_by_id InstallationPhoto pid (get_session (bind s'))) = Return None)
      ∧ (∀ a aid, a ∈ appearances_of gallery "ex-1" → col a "id" = VStr aid →
           fst (get_by_id ArtworkAppearance aid (get_session (bind s'))) = Return None)
      ∧ table (bind s') Exhibition
        = List.filter (λ o, negb (sql_eq (col o "id") (VStr "ex-1"))) (table gallery Exhibition)
      ∧ table (bind s') Artwork = table gallery Artwork.
Proof.
  assert (Hs : stored gallery Exhibition "ex-1"
                 {[ "id" := VStr "ex-1"; "name" := VStr "Colors of the Night";
                    "museum" := VStr "MoMA" ]}) by by_evaluation.
  split; [exact Hs|].
  exact (proj1 (delete_exhibition_cascades gallery "ex-1") _ Hs).
Defined.

(** On the fixture: two photos and two appearances go with the first
    exhibition; what belongs to the second exhibition stays. *)
Example delete_exhibition_on_gallery :
  let db' := bind (snd (delete Exhibition "ex-1" (get_session gallery))) in
  length (photos_of gallery "ex-1") = 2%nat
  ∧ length (appearances_of gallery "ex-1") = 2%nat
  ∧ ((λ r, col r "id") <$> table db' Exhibition) = [VStr "ex-2"]
  ∧ ((λ r, col r "id") <$> table db' InstallationPhoto) = [VStr "ph-3"]
  ∧ ((λ r, col r "id") <$> table db' ArtworkAppearance) = [VStr "ap-3"]
  ∧ ((λ r, col r "id") <$> table db' Artwork) = [VStr "aw-1"].
Proof. cbv zeta. repeat split; by_evaluation. Qed.

(** ** Queries and attribute reads, step by step *)

Lemma query_first_spec (m : Model) (p : row → bool) (s : Session) :
  query_first m p s
  = match List.filter p (table (bind s) m) with
    | [] => (Return None, s)
    | r :: _ => (Return (Some (length (objects s))),
                 {| bind := bind s; objects := objects s ++ [loaded m r] |})
    end.
Proof. unfold query_first, select. by destruct (List.filter p (table (bind s) m)). Qed.

Lemma query_all_spec (m : Model) (p : row → bool) (s : Session) :
  query_all m p s
  = (Return (seq (length (objects s)) (length (List.filter p (table (bind s) m)))),
     {| bind := bind s;
        objects := objects s ++ (loaded m <$> List.filter p (table (bind s) m)) |}).
Proof. unfold query_all, select. apply load_all_spec. Qed.

Lemma query_all_none (m : Model) (p : row → bool) (s : Session) :
  List.filter p (table (bind s) m) = [] → query_all m p s = (Return [], s).
Proof.
  intros H. rewrite query_all_spec, H. cbn. rewrite app_nil_r. by destruct s.
Qed.

Lemma getattr_spec (s : Session) (r : ref) (o : Obj) (k : string) :
  deref s r = Some o → getattr r k s = (Return (col (attrs o) k), s).
Proof. intros H. unfold getattr. by rewrite H. Qed.

Lemma sql_insert_ok (m : Model) (r : row) (db : Database) :
  not_null_ok m r = true → unique_ok m (table db m) r = true →
  foreign_keys_ok db m r = true →
  sql_insert m r db = Return (set_table m (table db m ++ [r]) db).
Proof. intros H1 H2 H3. unfold sql_insert. by rewrite H1, H2, H3. Qed.

(** Loading a row that is found under its primary key keeps the session
    without pending work. *)
Lemma clean_load (s : Session) (m : Model) (r : row) :
  clean s → find_row (bind s) m (col r "id") = Some r →
  clean {| bind := bind s; objects := objects s ++ [loaded m r] |}.
Proof.
  intros Hs Hr. unfold clean. cbn [bind objects]. apply Forall_app. split; [exact Hs|].
  constructor; [|done]. by apply in_step_loaded.
Qed.

Lemma clean_fresh (db : Database) : clean (get_session db).
Proof. constructor. Qed.

Lemma clean_find_row (s : Session) (i : nat) (m : Model) (r : row) :
  clean s → objects s !! i = Some (loaded m r) →
  find_row (bind s) m (col r "id") = Some r.
Proof.
  intros Hs Hi. unfold clean in Hs. rewrite Forall_lookup in Hs.
  destruct (Hs i _ Hi) as (m' & r' & Heq & Hfind).
  injection Heq as -> -> _. exact Hfind.
Qed.

(** The end of a [with get_db()] block whose body left the session without
    pending work: the commit writes nothing. *)
Lemma with_get_db_clean {A} (body : ORM A) (db : Database) (a : A) (s : Session) :
  body (get_session db) = (Return a, s) → clean s →
  with_get_db body db = (Return a, bind s).
Proof.
  intros Hbody Hs.
  apply (with_get_db_run body db {| bind := bind s; objects := objects s |}).
  apply try_except_return.
  rewrite (bind_return _ _ _ _ _ Hbody).
  rewrite (bind_return _ _ _ _ _ (commit_clean s Hs)). by destruct s.
Qed.

(** ** [create_sample_data] *)

Lemma find_row_single (db : Database) (m : Model) (r : row) (i : string) :
  table db m = [r] → col r "id" = VStr i → find_row db m (col r "id") = Some r.
Proof.
  intros Ht Hi. unfold find_row. rewrite Ht. cbn [List.filter].
  by rewrite Hi, sql_eq_refl.
Qed.

Lemma find_first_nil {St A} (test : A → Py St bool) (s : St) :
  find_first [] test s = (Return None, s).
Proof. reflexivity. Qed.

Lemma find_first_hit {St A} (x : A) (xs : list A) (test : A → Py St bool) (s : St) :
  test x s = (Return true, s) → find_first (x :: xs) test s = (Return (Some x), s).
Proof. intros H. cbn [find_first]. by rewrite (bind_return _ _ _ _ _ H). Qed.

(** When the database holds the sample artwork, the sample exhibition, its
    photo and the appearance of the artwork in that photo, and nothing else,
    the body of [create_sample_data] finds them and creates nothing. *)
Lemma create_sample_data_body_existing (ilike : string → value → bool) (db : Database)
    (r0 r1 r2 r3 : row) (i0 i1 i2 i3 : string) :
  table db Artwork = [r0] → table db Exhibition = [r1] →
  table db InstallationPhoto = [r2] → table db ArtworkAppearance = [r3] →
  col r0 "id" = VStr i0 → col r0 "catalog_number" = VStr "MoMA-472.1941" →
  col r1 "id" = VStr i1 → col r1 "name" = VStr "Van Gogh and the Colors of the Night" →
  col r2 "id" = VStr i2 → col r2 "exhibition_id" = VStr i1 →
  col r2 "original_filename" = VStr "exhibition_photo_001.jpg" →
  col r3 "id" = VStr i3 → col r3 "photo_id" = VStr i2 → col r3 "artwork_id" = VStr i0 →
  let s := {| bind := db;
              objects := [loaded Artwork r0; loaded Exhibition r1;
                          loaded InstallationPhoto r2; loaded ArtworkAppearance r3] |} in
  create_sample_data_body ilike (get_session db) = (Return true, s) ∧ clean s.
Proof.
  intros T0 T1 T2 T3 I0 C0 I1 N1 I2 E2 F2 I3 P3 A3 s.
  assert (Hclean : clean s).
  { unfold clean, s. cbn [bind objects]. repeat constructor; apply in_step_loaded;
      eauto using find_row_single. }
  split; [|exact Hclean].
  set (s1 := {| bind := db; objects := [loaded Artwork r0] |}).
  set (s2 := {| bind := db; objects := [loaded Artwork r0; loaded Exhibition r1] |}).
  set (s3 := {| bind := db; objects := [loaded Artwork r0; loaded Exhibition r1;
                                        loaded InstallationPhoto r2] |}).
  unfold create_sample_data_body.
  (* the artwork *)
  rewrite (bind_return _ _ _ s1 (Some 0%nat)).
  2:{ unfold get_by_catalog_number. rewrite query_first_spec. cbn [bind get_session objects].
      rewrite T0. cbn [List.filter]. rewrite C0, sql_eq_refl by done. reflexivity. }
  rewrite (bind_return _ _ _ s1 0%nat) by done.
  (* the exhibition *)
  rewrite (bind_return _ _ _ s2 [1%nat]).
  2:{ unfold search_by_name. rewrite query_all_spec. cbn [bind objects s1].
      rewrite T1. cbn [List.filter]. rewrite N1, sql_eq_refl by done. reflexivity. }
  rewrite (bind_return _ _ _ s2 1%nat) by done.
  (* the photo *)
  rewrite (bind_return _ _ _ _ _ (getattr_spec s2 1%nat (loaded Exhibition r1) "id" eq_refl)).
  cbn [attrs loaded]. rewrite I1.
  rewrite (bind_return _ _ _ s3 [2%nat]).
  2:{ unfold get_by_exhibition. rewrite query_all_spec. cbn [bind objects s2].
      rewrite T2. cbn [List.filter]. rewrite E2, sql_eq_refl by done. reflexivity. }
  rewrite (bind_return _ _ _ s3 (Some 2%nat)).
  2:{ apply find_first_hit.
      rewrite (bind_return _ _ _ _ _
                 (getattr_spec s3 2%nat (loaded InstallationPhoto r2) "original_filename" eq_refl)).
      cbn [attrs loaded]. by rewrite F2, py_eq_refl. }
  rewrite (bind_return _ _ _ s3 2%nat) by done.
  (* the appearance *)
  rewrite (bind_return _ _ _ _ _ (getattr_spec s3 2%nat (loaded InstallationPhoto r2) "id" eq_refl)).
  cbn [attrs loaded]. rewrite I2.
  rewrite (bind_return _ _ _ s [3%nat]).
  2:{ unfold get_by_photo. rewrite query_all_spec. cbn [bind objects s3].
      rewrite T3. cbn [List.filter]. rewrite P3, sql_eq_refl by done. reflexivity. }
  rewrite (bind_return _ _ _ s (Some 3%nat)).
  2:{ apply find_first_hit.
      rewrite (bind_return _ _ _ _ _
                 (getattr_spec s 3%nat (loaded ArtworkAppearance r3) "artwork_id" eq_refl)).
      rewrite (bind_return _ _ _ _ _ (getattr_spec s 0%nat (loaded Artwork r0) "id" eq_refl)).
      cbn [attrs loaded]. by rewrite A3, I0, py_eq_refl. }
  by rewrite (bind_return _ _ _ s 3%nat).
Qed.


Lemma keywords_are_columns (m : Model) (kwargs : row) :
  map_Forall (λ k _, is_column m k = true) kwargs →
  ∀ k, is_Some (kwargs !! k) → is_column m k = true.
Proof. intros H k [v Hk]. exact (H k v Hk). Qed.

Lemma table_insert_row (m m' : Model) (a : row) (db : Database) :
  table (insert_row m a db).2 m' = table db m'.
Proof. unfold table. by rewrite (proj1 (insert_row_tables m a db)). Qed.

Lemma table_after_insert (m m' : Model) (a : row) (rows : list row) (db : Database) :
  table (set_table m rows (insert_row m a db).2) m'
  = if decide (tablename m = tablename m') then rows else table db m'.
Proof.
  case_decide as Hm.
  - unfold table, set_table. cbn. by rewrite Hm, lookup_total_insert_eq.
  - by rewrite table_set_table_ne, table_insert_row.
Qed.

Lemma Artwork_mapped : Artwork ∈ mapped_classes.
Proof. apply list_elem_of_here. Qed.

Lemma Exhibition_mapped : Exhibition ∈ mapped_classes.
Proof. apply list_elem_of_further, list_elem_of_here. Qed.

Lemma InstallationPhoto_mapped : InstallationPhoto ∈ mapped_classes.
Proof. do 2 apply list_elem_of_further. apply list_elem_of_here. Qed.

Lemma ArtworkAppearance_mapped : ArtworkAppearance ∈ mapped_classes.
Proof. do 3 apply list_elem_of_further. apply list_elem_of_here. Qed.

(** [create] into a session without pending work, when the new row passes
    the three kinds of constraint. *)
Lemma create_step (m : Model) (kwargs : row) (s : Session) :
  clean s → m ∈ mapped_classes →
  map_Forall (λ k _, is_column m k = true) kwargs →
  let r := (insert_row m kwargs (bind s)).1 in
  let d := (insert_row m kwargs (bind s)).2 in
  not_null_ok m r = true → unique_ok m (table (bind s) m) r = true →
  foreign_keys_ok d m r = true →
  let s' := {| bind := set_table m (table (bind s) m ++ [r]) d;
               objects := objects s ++ [loaded m r] |} in
  create m kwargs s = (Return (length (objects s)), s') ∧ clean s'.
Proof.
  intros Hs Hm Hk r d Hnn Hu Hfk s'.
  destruct (mapped_classes_well_formed m Hm) as [Hid _].
  apply (create_clean m kwargs s _ Hs Hid (keywords_are_columns m kwargs Hk)).
  fold r d. rewrite <- (table_insert_row m m kwargs (bind s)). fold d.
  apply sql_insert_ok; [done| |done]. unfold d. by rewrite table_insert_row.
Qed.

(** One step of running a block in the hypothesis [E]: the first call is
    [getattr], and [G] says what it reads. *)
Ltac run_getattr G E :=
  let G' := fresh in
  pose proof (λ k, bind_return (B := bool) _ k _ _ _ G) as G'; cbv beta in G';
  rewrite G' in E; clear G G'.

(** On an empty database the body of [create_sample_data] creates the four
    records, one in each table. *)
Lemma create_sample_data_body_empty (ilike : string → value → bool)
    (c : Z) (fk : bool) (f : nat → string) (n : nat) :
  let db := {| tables := ∅; clock := c; foreign_keys := fk;
               uuid_source := f; uuid_count := n |} in
  ∃ s r0 r1 r2 r3,
    create_sample_data_body ilike (get_session db) = (Return true, s) ∧ clean s
    ∧ table (bind s) Artwork = [r0] ∧ table (bind s) Exhibition = [r1]
    ∧ table (bind s) InstallationPhoto = [r2] ∧ table (bind s) ArtworkAppearance = [r3]
    ∧ col r0 "id" = VStr (f n) ∧ col r0 "catalog_number" = VStr "MoMA-472.1941"
    ∧ col r1 "id" = VStr (f (S n))
    ∧ col r1 "name" = VStr "Van Gogh and the Colors of the Night"
    ∧ col r2 "id" = VStr (f (S (S n))) ∧ col r2 "exhibition_id" = VStr (f (S n))
    ∧ col r2 "original_filename" = VStr "exhibition_photo_001.jpg"
    ∧ col r3 "id" = VStr (f (S (S (S n)))) ∧ col r3 "photo_id" = VStr (f (S (S n)))
    ∧ col r3 "artwork_id" = VStr (f n).
Proof.
  intros db.
  pose proof (eq_refl (create_sample_data_body ilike (get_session db))) as E.
  unfold create_sample_data_body in E at 2.
  (* the artwork *)
  rewrite (bind_return _ _ _ (get_session db) None) in E by done.
  match type of E with context [create Artwork ?kw] => set (kw0 := kw) in E end.
  destruct (create_step Artwork kw0 (get_session db)) as [C0 Hs1];
    [apply clean_fresh|apply Artwork_mapped|by_evaluation|by vm_compute|by vm_compute
    |vm_compute; by destruct fk|].
  cbn [bind objects get_session length app] in C0, Hs1.
  set (r0 := (insert_row Artwork kw0 db).1) in *.
  set (s1 := {| bind := set_table Artwork (table db Artwork ++ [r0])
                          (insert_row Artwork kw0 db).2;
               objects := [loaded Artwork r0] |}) in *.
  rewrite (bind_return _ _ _ _ _ C0) in E. cbv beta in E.
  (* the exhibition *)
  rewrite (bind_return _ _ _ s1 []) in E.
  2:{ unfold search_by_name. apply query_all_none. cbn [bind s1].
      by rewrite table_after_insert. }
  match type of E with context [create Exhibition ?kw] => set (kw1 := kw) in E end.
  destruct (create_step Exhibition kw1 s1) as [C1 Hs2];
    [exact Hs1|apply Exhibition_mapped|by_evaluation|by vm_compute|by vm_compute
    |vm_compute; by destruct fk|].
  change (objects s1) with [loaded Artwork r0] in C1, Hs2. cbn [length app] in C1, Hs2.
  set (r1 := (insert_row Exhibition kw1 (bind s1)).1) in *.
  set (s2 := {| bind := set_table Exhibition (table (bind s1) Exhibition ++ [r1])
                          (insert_row Exhibition kw1 (bind s1)).2;
               objects := [loaded Artwork r0; loaded Exhibition r1] |}) in *.
  rewrite (bind_return _ _ _ _ _ C1) in E. cbv beta in E.
  (* the photo *)
  pose proof (getattr_spec s2 1%nat (loaded Exhibition r1) "id" eq_refl) as G; run_getattr G E.
  rewrite (bind_return _ _ _ s2 []) in E.
  2:{ unfold get_by_exhibition. apply query_all_none. cbn [bind s2].
      rewrite table_after_insert. cbn [bind s1]. by rewrite table_after_insert. }
  rewrite (bind_return _ _ _ s2 None) in E by done.
  cbv beta iota in E. rewrite bind_assoc in E.
  pose proof (getattr_spec s2 1%nat (loaded Exhibition r1) "id" eq_refl) as G; run_getattr G E.
  cbn [attrs loaded] in E.
  match type of E with context [create InstallationPhoto ?kw] => set (kw2 := kw) in E end.
  destruct (create_step InstallationPhoto kw2 s2) as [C2 Hs3];
    [exact Hs2|apply InstallationPhoto_mapped|by_evaluation|by vm_compute|by vm_compute
    |vm_compute; destruct fk; by rewrite ?String.eqb_refl|].
  change (objects s2) with [loaded Artwork r0; loaded Exhibition r1] in C2, Hs3.
  cbn [length app] in C2, Hs3.
  set (r2 := (insert_row InstallationPhoto kw2 (bind s2)).1) in *.
  set (s3 := {| bind := set_table InstallationPhoto
                          (table (bind s2) InstallationPhoto ++ [r2])
                          (insert_row InstallationPhoto kw2 (bind s2)).2;
               objects := [loaded Artwork r0; loaded Exhibition r1;
                           loaded InstallationPhoto r2] |}) in *.
  rewrite (bind_return _ _ _ _ _ C2) in E. cbv beta in E.
  (* the appearance *)
  pose proof (getattr_spec s3 2%nat (loaded InstallationPhoto r2) "id" eq_refl) as G; run_getattr G E.
  rewrite (bind_return _ _ _ s3 []) in E.
  2:{ unfold get_by_photo. apply query_all_none. cbn [bind s3].
      rewrite table_after_insert. cbn [bind s2].
      rewrite table_after_insert. cbn [bind s1]. by rewrite table_after_insert. }
  rewrite (bind_return _ _ _ s3 None) in E by done.
  cbv beta iota in E. rewrite bind_assoc in E.
  pose proof (getattr_spec s3 0%nat (loaded Artwork r0) "id" eq_refl) as G; run_getattr G E.
  rewrite bind_assoc in E.
  pose proof (getattr_spec s3 2%nat (loaded InstallationPhoto r2) "id" eq_refl) as G; run_getattr G E.
  cbn [attrs loaded] in E.
  match type of E with context [create ArtworkAppearance ?kw] => set (kw3 := kw) in E end.
  destruct (create_step ArtworkAppearance kw3 s3) as [C3 Hs4];
    [exact Hs3|apply ArtworkAppearance_mapped|by_evaluation|by vm_compute|by vm_compute
    |vm_compute; destruct fk; by rewrite ?String.eqb_refl|].
  change (objects s3)
    with [loaded Artwork r0; loaded Exhibition r1; loaded InstallationPhoto r2] in C3, Hs4.
  cbn [length app] in C3, Hs4.
  set (r3 := (insert_row ArtworkAppearance kw3 (bind s3)).1) in *.
  set (s4 := {| bind := set_table ArtworkAppearance
                          (table (bind s3) ArtworkAppearance ++ [r3])
                          (insert_row ArtworkAppearance kw3 (bind s3)).2;
               objects := [loaded Artwork r0; loaded Exhibition r1;
                           loaded InstallationPhoto r2; loaded ArtworkAppearance r3] |}) in *.
  rewrite (bind_return _ _ _ _ _ C3) in E. cbv beta in E.
  exists s4, r0, r1, r2, r3. split; [by rewrite E|]. split; [exact Hs4|].
  repeat split.
Qed.

(** C8.  On a database whose tables are empty, [create_sample_data] returns
    [True] and leaves one artwork, one exhibition, one installation photo and
    one appearance; run again on the result it returns [True] and leaves the
    database as it found it: the catalog number, the exact exhibition name,
    the photo's file name and the artwork of the appearance are found again,
    and nothing is created. *)
Theorem create_sample_data_idempotent (ilike : string → value → bool) (db : Database) :
  tables db = ∅ →
  ∃ db1 r0 r1 r2 r3,
    create_sample_data ilike db = (Return true, db1)
    ∧ create_sample_data ilike db1 = (Return true, db1)
    ∧ table db1 Artwork = [r0] ∧ table db1 Exhibition = [r1]
    ∧ table db1 InstallationPhoto = [r2] ∧ table db1 ArtworkAppearance = [r3]
    ∧ col r0 "catalog_number" = VStr "MoMA-472.1941"
    ∧ col r1 "name" = VStr "Van Gogh and the Colors of the Night"
    ∧ col r2 "original_filename" = VStr "exhibition_photo_001.jpg"
    ∧ col r2 "exhibition_id" = col r1 "id"
    ∧ col r3 "photo_id" = col r2 "id" ∧ col r3 "artwork_id" = col r0 "id".
Proof.
  destruct db as [t c fk f n]. cbn [tables]. intros ->.
  destruct (create_sample_data_body_empty ilike c fk f n)
    as (s & r0 & r1 & r2 & r3 & Hrun & Hclean & T0 & T1 & T2 & T3
        & I0 & C0 & I1 & N1 & I2 & E2 & F2 & I3 & P3 & A3).
  destruct (create_sample_data_body_existing ilike (bind s) r0 r1 r2 r3 _ _ _ _
              T0 T1 T2 T3 I0 C0 I1 N1 I2 E2 F2 I3 P3 A3) as [Hrun' Hclean'].
  exists (bind s), r0, r1, r2, r3.
  split; [|split].
  - unfold create_sample_data. by rewrite (with_get_db_clean _ _ _ _ Hrun Hclean).
  - unfold create_sample_data. by rewrite (with_get_db_clean _ _ _ _ Hrun' Hclean').
  - rewrite I0, I1, I2. by repeat split.
Qed.

Lemma create_sample_data_idempotent_witness :
  ∃ db1 r0 r1 r2 r3,
    create_sample_data (λ _ _, false) empty_database = (Return true, db1)
    ∧ create_sample_data (λ _ _, false) db1 = (Return true, db1)
    ∧ table db1 Artwork = [r0] ∧ table db1 Exhibition = [r1]
    ∧ table db1 InstallationPhoto = [r2] ∧ table db1 ArtworkAppearance = [r3]
    ∧ col r0 "catalog_number" = VStr "MoMA-472.1941"
    ∧ col r1 "name" = VStr "Van Gogh and the Colors of the Night"
    ∧ col r2 "original_filename" = VStr "exhibition_photo_001.jpg"
    ∧ col r2 "exhibition_id" = col r1 "id"
    ∧ col r3 "photo_id" = col r2 "id" ∧ col r3 "artwork_id" = col r0 "id".
Proof. exact (create_sample_data_idempotent (λ _ _, false) empty_database eq_refl). Defined.

(** ** The identifier of an entity *)




Lemma try_except_rollback_bind {A} (body : ORM A) (s : Session) :
  bind (snd (try_except body (λ e, rollback;; raise e) s)) = bind (snd (body s)).
Proof.
  unfold try_except. destruct (body s) as [[a|e] s1]; [done|].
  by destruct (isinstance_Exception e).
Qed.



Lemma setattr_loaded (db : Database) (o : Obj) (k : string) (v : value) :
  setattr 0%nat k v {| bind := db; objects := [o] |}
  = (Return tt, {| bind := db; objects := [set_attrs (<[k := v]> (attrs o)) o] |}).
Proof. reflexivity. Qed.




Lemma orm_delete_artwork (pk : value) (t : gmap string (list row)) :
  orm_delete Artwork pk t
  = let t' := fold_left (λ acc c, orm_delete ArtworkAppearance (col c "id") acc)
                (List.filter (λ c, sql_eq (col c "artwork_id") pk) (t !!! "artwork_appearances"))
                t in
    <["artworks" :=
        List.filter (λ o, negb (sql_eq (col o "id") pk)) (t' !!! "artworks")]> t'.
Proof. reflexivity. Qed.

Lemma shrinks_orm_delete_artwork (pk : value) (t : gmap string (list row)) :
  shrinks t (orm_delete Artwork pk t).
Proof.
  rewrite orm_delete_artwork. cbv zeta.
  eapply shrinks_trans; [|apply shrinks_delete].
  apply shrinks_fold. intros acc c. apply shrinks_orm_delete_appearance.
Qed.






(** * Further properties *)

(** ** database.py *)

(** X1.  An error of the body that is not an [Exception] (a
    [KeyboardInterrupt], say) passes through [get_db] without a rollback:
    the session is closed in the state the body left it in, and the error
    reaches the caller. *)
Theorem get_db_base_exception_skips_rollback {S A} (session : SessionMethods S)
    (body : Py S A) (s s1 s2 : S) (e : exn) :
  body s = (Raise e, s1) → isinstance_Exception e = false →
  session_close session s1 = (Return tt, s2) →
  get_db session body s = (Raise e, s2).
Proof.
  intros Hbody He Hclose.
  unfold get_db, try_finally, try_except, mbind, Py_bind.
  by rewrite Hbody, He, Hclose.
Qed.

Lemma get_db_base_exception_skips_rollback_witness :
  get_db orm_session (raise (A := unit) (BaseException "KeyboardInterrupt"))
         (get_session empty_database)
  = (Raise (BaseException "KeyboardInterrupt"), get_session empty_database).
Proof.
  apply (get_db_base_exception_skips_rollback orm_session _ _ (get_session empty_database));
    reflexivity.
Defined.

(** X2.  [test_connection] answers [True] only when the statement, the
    commit and the close have all succeeded, and it lets no [Exception]
    escape. *)
Theorem test_connection_true_only_after_close {S} (session : SessionMethods S)
    (execute : Py S unit) (s : S) :
  (∀ s', test_connection session execute s = (Return true, s') →
     ∃ s1 s2, execute s = (Return tt, s1)
              ∧ session_commit session s1 = (Return tt, s2)
              ∧ session_close session s2 = (Return tt, s'))
  ∧ (∀ e s', test_connection session execute s = (Raise e, s') →
       isinstance_Exception e = false).
Proof.
  split.
  - unfold test_connection, get_db, try_finally, try_except, mbind, Py_bind, mret, Py_ret, raise.
    intros s' H.
    destruct (execute s) as [[[]|e] s1] eqn:Hex.
    + destruct (session_commit session s1) as [[[]|e] s2] eqn:Hc.
      * destruct (session_close session s2) as [[[]|e] s3] eqn:Hcl.
        -- injection H as <-. by exists s1, s2.
        -- by destruct (isinstance_Exception e).
      * destruct (isinstance_Exception e) eqn:He.
        -- destruct (session_rollback session s2) as [[[]|e'] s3];
             destruct (session_close session s3) as [[[]|e''] s4];
             repeat case_match; simplify_eq.
        -- destruct (session_close session s2) as [[[]|e''] s4];
             repeat case_match; simplify_eq.
    + destruct (isinstance_Exception e) eqn:He.
      * destruct (session_rollback session s1) as [[[]|e'] s3];
          destruct (session_close session s3) as [[[]|e''] s4];
          repeat case_match; simplify_eq.
      * destruct (session_close session s1) as [[[]|e''] s4];
          repeat case_match; simplify_eq.
  - unfold test_connection. intros e s' H.
    destruct (get_db session execute s) as [[b|e0] s0]; [done|].
    destruct (isinstance_Exception e0) eqn:He0; [done|]. by injection H as <- <-.
Qed.

Lemma test_connection_true_only_after_close_witness :
  ∃ s1 s2, (mret tt : ORM unit) (get_session empty_database) = (Return tt, s1)
           ∧ session_commit orm_session s1 = (Return tt, s2)
           ∧ session_close orm_session s2 = (Return tt, get_session empty_database).
Proof.
  apply (proj1 (test_connection_true_only_after_close orm_session (mret tt)
                  (get_session empty_database))).
  reflexivity.
Defined.

(** X3.  [get_engine] creates the engine once: a later call returns the
    engine of the first call whatever the configuration says by then.  A URL
    assembled from the components of the configuration never selects the
    SQLite branch: its engine gets the pool of size 10 with overflow 20. *)
Theorem get_engine_created_once (db_config db_config' : DatabaseConfig)
    (engine : option EngineArguments) :
  get_engine db_config' (get_engine db_config engine).2
  = ((get_engine db_config engine).1, (get_engine db_config engine).2)
  ∧ (config_url db_config = None ∨ config_url db_config = Some EmptyString →
     let e := (get_engine db_config None).1 in
     static_pool e = false ∧ engine_pool_size e = Some 10 ∧ max_overflow e = Some 20).
Proof.
  split.
  - by destruct engine.
  - intros Hurl e. unfold e, get_engine, get_database_url.
    destruct Hurl as [-> | ->]; destruct (config_password db_config); by vm_compute.

Qed.

Lemma get_engine_created_once_witness :
  let c := {| config_url := None; config_host := "localhost"; config_port := "5432";
              config_database := "artwork_db"; config_user := "postgres";
              config_password := EmptyString |} in
  let e := (get_engine c None).1 in
  static_pool e = false ∧ engine_pool_size e = Some 10 ∧ max_overflow e = Some 20.
Proof.
  intros c.
  apply (proj2 (get_engine_created_once c c None)). by left.
Defined.

(** ** crud.py: the queries *)

Lemma sql_ge_time (v : value) (d : Z) :
  sql_ge v (VTime d) = true ↔ ∃ t, v = VTime t ∧ (d <= t)%Z.
Proof.
  destruct v as [| | | |t|]; simpl; split; try congruence;
    try (by intros (? & [=] & _)).
  - intros H. exists t. split; [done|]. by apply Z.leb_le.
  - intros (t' & [= <-] & H). by apply Z.leb_le.
Qed.

Lemma sql_le_time (v : value) (d : Z) :
  sql_le v (VTime d) = true ↔ ∃ t, v = VTime t ∧ (t <= d)%Z.
Proof.
  unfold sql_le.
  destruct v as [| | | |t|]; simpl; split; try congruence;
    try (by intros (? & [=] & _)).
  - intros H. exists t. split; [done|]. by apply Z.leb_le.
  - intros (t' & [= <-] & H). by apply Z.leb_le.
Qed.

Lemma sql_eq_bool (v : value) (b : bool) : sql_eq v (VBool b) = true ↔ v = VBool b.
Proof.
  destruct v as [| | |b'| |]; simpl; split; try congruence.
  - intros H. f_equal. by apply Bool.eqb_prop.
  - intros [= ->]. apply Bool.eqb_reflx.
Qed.

(** X4.  [get_verified] returns the appearances whose [verified] is [True],
    [get_unverified] those whose [verified] is [False]; an appearance whose
    [verified] is NULL is in neither result. *)
Theorem get_verified_get_unverified (db : Database) (r : row) :
  ((r ∈ result_rows get_verified db)
   ↔ (r ∈ table db ArtworkAppearance ∧ col r "verified" = VBool true))
  ∧ ((r ∈ result_rows get_unverified db)
     ↔ (r ∈ table db ArtworkAppearance ∧ col r "verified" = VBool false))
  ∧ (r ∈ result_rows get_verified db → r ∉ result_rows get_unverified db)
  ∧ (col r "verified" = VNull →
     (r ∉ result_rows get_verified db) ∧ (r ∉ result_rows get_unverified db)).
Proof.
  unfold get_verified, get_unverified. rewrite !result_rows_query_all.
  rewrite !elem_of_List_filter, !sql_eq_bool.
  split; [done|]. split; [done|]. split.
  - intros [_ H1] [_ H2]. congruence.
  - intros Hn. split; intros [_ H]; congruence.
Qed.

Lemma length_filter_three {A} (p q : A → bool) (l : list A) :
  (∀ x, p x = true → q x = false) →
  length l
  = (length (List.filter p l) + length (List.filter q l)
     + length (List.filter (λ x, negb (p x) && negb (q x)) l))%nat.
Proof.
  intros Hpq. induction l as [|x l IH]; [done|]. cbn [List.filter].
  destruct (p x) eqn:Hp.
  - rewrite (Hpq x Hp). cbn. lia.
  - destruct (q x); cbn; lia.
Qed.

(** X5.  What [get_statistics] reports as verified is the number of
    appearances [get_verified] returns; what it reports as unverified is the
    number [get_unverified] returns plus the number of appearances whose
    [verified] is neither [True] nor [False] (NULL): those are counted as
    unverified, but no query for unverified appearances returns them. *)
Theorem get_statistics_counts_null_as_unverified (db : Database) :
  ∃ st, fst (get_statistics (get_session db)) = Return st
    ∧ verified_appearances st = Z.of_nat (length (result_rows get_verified db))
    ∧ unverified_appearances st
      = (Z.of_nat (length (result_rows get_unverified db))
         + Z.of_nat (length (List.filter
                               (λ r, negb (sql_eq (col r "verified") (VBool true))
                                     && negb (sql_eq (col r "verified") (VBool false)))
                               (table db ArtworkAppearance))))%Z.
Proof.
  unfold get_verified, get_unverified. rewrite !result_rows_query_all.
  unfold get_statistics, query_count, query_avg, select, mbind, Py_bind, mret, Py_ret.
  cbn [bind get_session fst]. eexists. split; [reflexivity|].
  cbn [verified_appearances unverified_appearances]. split; [done|].
  rewrite List_filter_all.
  rewrite (length_filter_three (λ r, sql_eq (col r "verified") (VBool true))
             (λ r, sql_eq (col r "verified") (VBool false))
             (table db ArtworkAppearance)).
  - lia.
  - intros x H. apply sql_eq_bool in H. rewrite H. reflexivity.
Qed.

(** X6.  [get_current_exhibitions] at the time [now] returns what
    [get_by_date_range(now, now)] returns. *)
Theorem get_current_exhibitions_date_range (now : Z) (s : Session) :
  get_current_exhibitions now s = get_by_date_range (Some now) (Some now) s.
Proof.
  unfold get_current_exhibitions, get_by_date_range. rewrite !query_all_spec.
  assert (H : List.filter (λ r, sql_le (col r "start_date") (VTime now)
                               && sql_ge (col r "end_date") (VTime now))
                (table (bind s) Exhibition)
              = List.filter (λ r, true && sql_ge (col r "end_date") (VTime now)
                                  && sql_le (col r "start_date") (VTime now))
                  (table (bind s) Exhibition)).
  { apply filter_ext. intros r. cbn. apply andb_comm. }
  by rewrite H.
Qed.

(** X7.  [get_by_date_range] returns the exhibitions that overlap the range:
    with a start date, those whose [end_date] is stored and not before it;
    with an end date, those whose [start_date] is stored and not after it.
    An exhibition without [end_date] is never returned once a start date is
    given. *)
Theorem get_by_date_range_rows (db : Database) (start_date end_date : option Z) (r : row) :
  (r ∈ result_rows (get_by_date_range start_date end_date) db)
  ↔ (r ∈ table db Exhibition
     ∧ (∀ d, start_date = Some d → ∃ t, col r "end_date" = VTime t ∧ (d <= t)%Z)
     ∧ (∀ d, end_date = Some d → ∃ t, col r "start_date" = VTime t ∧ (t <= d)%Z)).
Proof.
  unfold get_by_date_range. rewrite result_rows_query_all, elem_of_List_filter.
  destruct start_date as [a|], end_date as [b|]; cbv beta iota zeta;
    rewrite ?andb_true_iff, ?sql_ge_time, ?sql_le_time;
    (split;
     [ intros H; split; [tauto|]; split; intros d Hd; try done; injection Hd as <-; tauto
     | intros (Hin & Ha & Hb); repeat split; eauto ]).
Qed.



(** ** crud.py: [delete] *)

Lemma List_filter_negb_none {A} (p : A → bool) (l : list A) :
  List.filter p (List.filter (λ x, negb (p x)) l) = [].
Proof.
  apply List_filter_none. intros x Hx. apply elem_of_List_filter in Hx as [_ Hx].
  by apply negb_true_iff in Hx.
Qed.

Lemma find_row_after_delete (m : Model) (db : Database) (pk : value) :
  find_row (with_tables (orm_delete m pk (tables db)) db) m pk = None.
Proof.
  unfold find_row, table. destruct m as [tn cs children bt].
  cbn [tables with_tables tablename orm_delete]. rewrite lookup_total_insert_eq.
  by rewrite (List_filter_negb_none (λ r, sql_eq (col r "id") pk)).
Qed.

(** X9.  A second [delete] of the same identifier finds nothing: it returns
    [False] and leaves the database as the first one left it. *)
Theorem delete_twice (m : Model) (db : Database) (id : string) (old : row) :
  stored db m id old →
  ∃ s', delete m id (get_session db) = (Return true, s')
    ∧ delete m id (get_session (bind s')) = (Return false, get_session (bind s')).
Proof.
  intros Hold. eexists. split; [by apply delete_found|].
  cbn [bind]. apply delete_not_found. apply find_row_after_delete.
Qed.

Lemma delete_twice_witness :
  ∃ s', delete Exhibition "ex-1" (get_session gallery) = (Return true, s')
    ∧ delete Exhibition "ex-1" (get_session (bind s')) = (Return false, get_session (bind s')).
Proof.
  apply (delete_twice Exhibition gallery "ex-1"
           {[ "id" := VStr "ex-1"; "name" := VStr "Colors of the Night";
              "museum" := VStr "MoMA" ]}).
  by_evaluation.
Defined.

Lemma orm_delete_artwork_removes_appearance (pk : value) (a : row) (t : gmap string (list row)) :
  sql_eq (col a "artwork_id") pk = true → col a "id" ≠ VNull →
  a ∉ orm_delete Artwork pk t !!! "artwork_appearances".
Proof.
  intros Hap Hnn. rewrite orm_delete_artwork. cbv zeta.
  rewrite lookup_total_insert_ne by done.
  set (children := List.filter _ (t !!! "artwork_appearances")).
  destruct (decide (a ∈ t !!! "artwork_appearances")) as [Hin|Hout].
  - apply (fold_left_establishes
             (λ acc c, orm_delete ArtworkAppearance (col c "id") acc)
             (λ acc, a ∉ acc !!! "artwork_appearances") children t a).
    + unfold children. by apply elem_of_List_filter.
    + intros acc. rewrite orm_delete_appearance, lookup_total_insert_eq.
      by apply not_in_filter_self.
    + intros acc x Hacc Hin'. apply Hacc.
      eapply shrinks_subset; [apply shrinks_orm_delete_appearance|exact Hin'].
  - intros Hin. apply Hout. eapply shrinks_subset; [|exact Hin].
    apply shrinks_fold. intros acc c. apply shrinks_orm_delete_appearance.
Qed.

Lemma orm_delete_artwork_other (pk : value) (t : gmap string (list row)) (tn : string) :
  tn ≠ "artworks" → tn ≠ "artwork_appearances" →
  orm_delete Artwork pk t !!! tn = t !!! tn.
Proof.
  intros H1 H2. rewrite orm_delete_artwork. cbv zeta.
  rewrite lookup_total_insert_ne by done.
  apply fold_left_lookup_total. intros acc c.
  rewrite orm_delete_appearance. by rewrite lookup_total_insert_ne.
Qed.

(** X10.  Deleting an artwork deletes its appearances with it
    ([Artwork.appearances] cascades): afterwards [get_by_id] finds neither
    the artwork nor any appearance that referred to it, while the
    exhibitions and the installation photos are what they were. *)
Theorem delete_artwork_cascades (db : Database) (id : string) (old : row) :
  stored db Artwork id old →
  ∃ s', delete Artwork id (get_session db) = (Return true, s')
    ∧ fst (get_by_id Artwork id (get_session (bind s'))) = Return None
    ∧ (∀ a aid, a ∈ table db ArtworkAppearance →
         sql_eq (col a "artwork_id") (VStr id) = true → col a "id" = VStr aid →
         fst (get_by_id ArtworkAppearance aid (get_session (bind s'))) = Return None)
    ∧ table (bind s') Exhibition = table db Exhibition
    ∧ table (bind s') InstallationPhoto = table db InstallationPhoto.
Proof.
  intros Hold. eexists. split; [by apply delete_found|]. cbn [bind].
  set (t := tables db). set (t' := orm_delete Artwork (VStr id) t).
  split; [|split; [|split]].
  - rewrite get_by_id_not_found; [done|]. apply not_stored_filter.
    apply find_row_after_delete.
  - intros a aid Ha Hart Haid. apply get_by_id_absent. intros r Hr.
    rewrite <- Haid.
    apply (shrinks_removed t t' "artwork_appearances" a r).
    + apply shrinks_orm_delete_artwork.
    + exact Ha.
    + apply orm_delete_artwork_removes_appearance; [done|]. by rewrite Haid.
    + exact Hr.
  - unfold table. cbn [tables with_tables]. by apply orm_delete_artwork_other.
  - unfold table. cbn [tables with_tables]. by apply orm_delete_artwork_other.
Qed.

Lemma delete_artwork_cascades_witness :
  ∃ s', delete Artwork "aw-1" (get_session gallery) = (Return true, s')
    ∧ fst (get_by_id Artwork "aw-1" (get_session (bind s'))) = Return None
    ∧ (∀ a aid, a ∈ table gallery ArtworkAppearance →
         sql_eq (col a "artwork_id") (VStr "aw-1") = true → col a "id" = VStr aid →
         fst (get_by_id ArtworkAppearance aid (get_session (bind s'))) = Return None)
    ∧ table (bind s') Exhibition = table gallery Exhibition
    ∧ table (bind s') InstallationPhoto = table gallery InstallationPhoto.
Proof.
  apply (delete_artwork_cascades gallery "aw-1"
           {[ "id" := VStr "aw-1"; "title" := VStr "The Starry Night";
              "artist" := VStr "Vincent van Gogh" ]}).
  by_evaluation.
Defined.

(** ** crud.py: [create] *)




(** ** database.py and database_setup.py *)

(** X12.  When the version query fails with an [Exception], [get_db_info]
    returns the dictionary that holds only the [error] entry with the text
    of the exception; an error that is not an [Exception] passes through. *)
Theorem get_db_info_error (engine : Engine) (e : exn) :
  select_version engine = Raise e →
  get_db_info engine
  = if isinstance_Exception e then Return {[ "error" := VStr (str_exn e) ]} else Raise e.
Proof.
  intros Hv. unfold get_db_info, with_get_db, get_db, try_finally, try_except,
    mbind, Py_bind, mret, Py_ret, raise.
  rewrite Hv. destruct (contains "sqlite" (url engine)); cbn [negb];
    destruct (isinstance_Exception e) eqn:He; cbn; by rewrite ?He.
Qed.

Lemma get_db_info_error_witness :
  get_db_info {| url := "sqlite:///artwork_db.sqlite"; url_password := None;
                 pool_size := 0; pool_checkedout := 0; pool_overflow := 0;
                 pool_checkedin := 0; database := empty_database;
                 select_version := Raise (Exception "unable to open database file") |}
  = Return {[ "error" := VStr "unable to open database file" ]}.
Proof.
  exact (get_db_info_error
           {| url := "sqlite:///artwork_db.sqlite"; url_password := None;
              pool_size := 0; pool_checkedout := 0; pool_overflow := 0;
              pool_checkedin := 0; database := empty_database;
              select_version := Raise (Exception "unable to open database file") |}
           (Exception "unable to open database file") eq_refl).
Defined.

(** ** Reading does not write *)



Lemma read_only_weaken {A} (c : ORM A) (P Q : A → Prop) :
  read_only c P → (∀ a, P a → Q a) → read_only c Q.
Proof.
  intros Hc HPQ s Hs. destruct (Hc s Hs) as (a & s1 & Hrun & Ha & Hb & Hs1).
  exists a, s1. eauto.
Qed.











(** ** crud.py: [verify_appearance] and [mark_processed] *)

Lemma py_eq_eq (a b : value) : (∀ q, a ≠ VNum q) → py_eq a b = true → a = b.
Proof.
  intros Hq. destruct a as [|x|q|x|x|x], b as [|y|q'|y|y|y]; simpl; try done.
  - intros H. f_equal. by apply String.eqb_eq.
  - by destruct (Hq q).
  - intros H. f_equal. by apply Bool.eqb_prop.
  - intros H. f_equal. by apply Z.eqb_eq.
  - intros H. f_equal. by apply String.eqb_eq.
Qed.

(** After the commit of one loaded object with the new attributes [a]: the
    database, and the row now stored under the identifier. *)
Lemma commit_modified (m : Model) (old a : row) (db : Database) (id : string) :
  m ∈ mapped_classes → stored db m id old → col a "id" = col old "id" →
  ∀ s', commit {| bind := db; objects := [set_attrs a (loaded m old)] |} = (Return tt, s') →
    ∃ new, stored (bind s') m id new
      ∧ ∀ k, k ∈ column_names m → k ≠ "updated_at" →
          col new k = if py_eq (col a k) (col old k) then col old k else col a k.
Proof.
  intros Hm Hold Ha s' Hc. destruct (mapped_classes_well_formed m Hm) as [Hid Hnd].
  destruct (stored_filter db m id old Hold) as [rest Hf].
  destruct (find_row_head db m id old rest Hf) as (Hoid & Hfind & Hin).
  rewrite commit_one_dirty, Hoid in Hc.
  destruct (changed m old a) eqn:Hch.
  - destruct (sql_update m (VStr id) (update_row m old a db) db) as [db2|e] eqn:Hup; [|done].
    injection Hc as <-. cbn [bind]. exists (update_row m old a db).
    split; [|intros k Hk Hne; by apply col_updated_row].
    unfold stored.
    assert (Hrid : col (update_row m old a db) "id" = VStr id).
    { rewrite (col_updated_row m old a db "id" Hm);
        [|apply list_elem_of_fmap; by exists id_column|done].
      rewrite Ha, Hoid. by destruct (py_eq _ _). }
    rewrite <- Hrid.
    apply (find_row_sql_update m (VStr id) _ db db2 old Hid Hup Hin).
    rewrite Hoid. apply String.eqb_refl.
  - injection Hc as <-. cbn [bind]. exists old. split; [done|].
    intros k Hk Hne.
    unfold changed in Hch. apply not_true_iff_false in Hch.
    destruct (py_eq (col a k) (col old k)) eqn:E; [done|]. exfalso. apply Hch.
    apply existsb_exists. apply list_elem_of_fmap in Hk as (c & -> & Hc).
    exists c. split; [by apply list_elem_of_In|]. by rewrite E.
Qed.

(** The value found after the commit in a column that was assigned a value
    other than a number. *)
Lemma assigned_value (new a old : value) :
  (∀ q, a ≠ VNum q) → new = (if py_eq a old then old else a) → new = a.
Proof.
  intros Hq ->. destruct (py_eq a old) eqn:E; [|done]. symmetry. by apply py_eq_eq.
Qed.

Lemma unassigned_value (new old : value) :
  new = (if py_eq old old then old else old) → new = old.
Proof. intros ->. by destruct (py_eq old old). Qed.

Lemma commit_then_return {A} (a : A) (s : Session) (r : outcome A) (s' : Session) :
  (commit;; mret a) s = (r, s') → r = Return a → commit s = (Return tt, s').
Proof.
  unfold mbind, Py_bind. destruct (commit s) as [[[]|e] s1]; [|congruence].
  by intros [= <- <-].
Qed.

Lemma try_except_rollback_fst {A} (body : ORM A) (s : Session) (a : A) :
  fst (try_except body (λ e, rollback;; raise e) s) = Return a → fst (body s) = Return a.
Proof.
  unfold try_except. destruct (body s) as [[a'|e] s1]; [done|].
  by destruct (isinstance_Exception e).
Qed.

Lemma stored_in_table (db : Database) (m : Model) (id : string) (r : row) :
  stored db m id r → r ∈ table db m ∧ col r "id" = VStr id.
Proof.
  intros H. destruct (stored_filter db m id r H) as [rest Hf].
  by destruct (find_row_head db m id r rest Hf) as (? & _ & ?).
Qed.

(** X15.  When [verify_appearance] returns [True] for a stored appearance,
    the appearance stored under the identifier afterwards is verified, by
    the given name and at the given time, holds the notes when notes that
    are not empty were given and the notes it had otherwise, and is among
    the appearances [get_verified] returns. *)
Theorem verify_appearance_marks_verified (now : Z) (db : Database)
    (id verified_by : string) (notes : option string) (old : row) :
  stored db ArtworkAppearance id old →
  fst (verify_appearance now id verified_by notes (get_session db)) = Return true →
  ∃ new,
    stored (bind (snd (verify_appearance now id verified_by notes (get_session db))))
           ArtworkAppearance id new
    ∧ col new "verified" = VBool true
    ∧ col new "verified_by" = VStr verified_by
    ∧ col new "verification_date" = VTime now
    ∧ col new "notes" = match notes with
                        | Some (String c n) => VStr (String c n)
                        | _ => col old "notes"
                        end
    ∧ new ∈ result_rows get_verified
              (bind (snd (verify_appearance now id verified_by notes (get_session db)))).
Proof.
  intros Hold Hret. unfold verify_appearance in *.
  apply try_except_rollback_fst in Hret. rewrite try_except_rollback_bind.
  destruct (stored_filter db _ id old Hold) as [rest Hf].
  destruct (stored_in_table db _ id old Hold) as [Hin Hoid].
  rewrite (bind_return _ _ _ _ _ (get_by_id_found ArtworkAppearance db id old rest Hf))
    in Hret |- *.
  rewrite !(bind_return _ _ _ _ _ (setattr_loaded db _ _ _)) in Hret |- *.
  cbn [attrs set_attrs loaded] in Hret |- *.
  set (a0 := <["verification_date" := VTime now]>
               (<["verified_by" := VStr verified_by]> (<["verified" := VBool true]> old)))
    in *.
  set (a := match notes with
            | Some (String c n) => <["notes" := VStr (String c n)]> a0
            | _ => a0
            end).
  assert (Hstep : ∀ (k : unit → ORM bool),
             (match notes with
              | Some (String c n) => setattr 0%nat "notes" (VStr (String c n))
              | _ => mret tt
              end ≫= k)
               {| bind := db;
                  objects := [ {| cls := ArtworkAppearance; attrs := a0; committed := old;
                                  identity := col old "id"; state := Persistent |} ] |}
             = k tt {| bind := db;
                       objects := [set_attrs a (loaded ArtworkAppearance old)] |}).
  { intros k. unfold a. by destruct notes as [[|c n]|]. }
  rewrite Hstep in Hret |- *.
  destruct ((commit;; mret true)
              {| bind := db; objects := [set_attrs a (loaded ArtworkAppearance old)] |})
    as [r s'] eqn:Hrun.
  cbn [fst snd] in *. subst r.
  pose proof (commit_then_return _ _ _ _ Hrun eq_refl) as Hc.
  assert (Ha0 : ∀ k, k ≠ "verification_date" → k ≠ "verified_by" → k ≠ "verified" →
                     col a0 k = col old k).
  { intros k H1 H2 H3. unfold a0. by rewrite !col_insert_ne. }
  assert (Ha : ∀ k, k ≠ "notes" → col a k = col a0 k).
  { intros k Hk. unfold a. destruct notes as [[|c n]|]; [done| |done].
    by rewrite col_insert_ne. }
  destruct (commit_modified ArtworkAppearance old a db id ArtworkAppearance_mapped Hold)
    with (s' := s') as (new & Hnew & Hcols); [|exact Hc|].
  { rewrite Ha, Ha0; done. }
  assert (Hc1 : col new "verified" = VBool true).
  { apply (assigned_value _ _ (col old "verified")); [done|].
    rewrite (Hcols "verified"); [|by_evaluation|done].
    rewrite Ha by done. unfold a0. rewrite !col_insert_ne by done. by rewrite col_insert_eq. }
  exists new. split; [done|]. split; [done|]. split; [|split; [|split]].
  - apply (assigned_value _ _ (col old "verified_by")); [done|].
    rewrite (Hcols "verified_by"); [|by_evaluation|done].
    rewrite Ha by done. unfold a0. rewrite col_insert_ne by done. by rewrite col_insert_eq.
  - apply (assigned_value _ _ (col old "verification_date")); [done|].
    rewrite (Hcols "verification_date"); [|by_evaluation|done].
    rewrite Ha by done. unfold a0. by rewrite col_insert_eq.
  - rewrite (Hcols "notes"); [|by_evaluation|done].
    unfold a. destruct notes as [[|c n]|].
    + rewrite Ha0 by done. by destruct (py_eq _ _).
    + rewrite col_insert_eq. by apply (assigned_value _ _ (col old "notes")).
    + rewrite Ha0 by done. by destruct (py_eq _ _).
  - unfold get_verified. rewrite result_rows_query_all. apply elem_of_List_filter.
    split; [by apply (stored_in_table _ _ id)|]. by rewrite Hc1.
Qed.

Lemma verify_appearance_marks_verified_witness :
  let old : row :=
    {[ "id" := VStr "ap-1"; "artwork_id" := VStr "aw-1"; "photo_id" := VStr "ph-1";
       "bbox_x" := VNum (2 # 10); "bbox_y" := VNum (3 # 10);
       "bbox_width" := VNum (4 # 10); "bbox_height" := VNum (5 # 10);
       "detection_confidence" := VNum (95 # 100);
       "matching_confidence" := VNum (87 # 100);
       "verified" := VBool false ]} in
  stored one_appearance ArtworkAppearance "ap-1" old
  ∧ fst (verify_appearance 400 "ap-1" "curator" (Some "seen in the catalogue")
           (get_session one_appearance)) = Return true
  ∧ ∃ new,
      stored (bind (snd (verify_appearance 400 "ap-1" "curator"
                           (Some "seen in the catalogue") (get_session one_appearance))))
             ArtworkAppearance "ap-1" new
      ∧ col new "verified" = VBool true
      ∧ col new "verified_by" = VStr "curator"
      ∧ col new "verification_date" = VTime 400
      ∧ col new "notes" = VStr "seen in the catalogue"
      ∧ new ∈ result_rows get_verified
                (bind (snd (verify_appearance 400 "ap-1" "curator"
                              (Some "seen in the catalogue")
                              (get_session one_appearance)))).
Proof.
  intros old.
  assert (Hs : stored one_appearance ArtworkAppearance "ap-1" old) by by_evaluation.
  assert (Hr : fst (verify_appearance 400 "ap-1" "curator" (Some "seen in the catalogue")
                      (get_session one_appearance)) = Return true) by by_evaluation.
  exact (conj Hs (conj Hr
    (verify_appearance_marks_verified 400 one_appearance "ap-1" "curator"
       (Some "seen in the catalogue") old Hs Hr))).
Defined.

(** ** models.py: the schema *)


